(** * aiohttp.client_exceptions: the client error taxonomy

    A shallow embedding of [aiohttp/client_exceptions.py].  The module is a
    set of exception classes; what it computes is decided by Python's class
    machinery: the method resolution order of each class (C3
    linearisation of the [bases] written in the source), the allocation
    ([__new__]) and initialisation ([__init__]) of an instance, attribute
    lookup through properties and the instance dictionary, and the
    [__str__] / [__repr__] renderings.  Each of these is modelled here as an
    executable function. *)

From Stdlib Require Import ZArith Ascii String.
From stdpp Require Import gmap strings list fin_maps pretty.

Local Open Scope string_scope.
Set Warnings "-register-all".

(** ** Classes *)

(** The classes of the module, preceded by the classes of the Python
    runtime they derive from.  [asyncio_TimeoutError] stands for
    [asyncio.TimeoutError] (which is [concurrent.futures.TimeoutError], a
    subclass of [concurrent.futures.Error], here [futures_Error]),
    [ssl_SSLError] and [ssl_CertificateError] for [ssl.SSLError] and
    [ssl.CertificateError].  The runtime is Python 3.5/3.6, the versions the
    module was written for. *)
Inductive cls : Set :=
  | object
  | BaseException
  | Exception
  | OSError
  | ValueError
  | futures_Error
  | asyncio_TimeoutError
  | ssl_SSLError
  | ssl_CertificateError
  | ClientError
  | ClientResponseError
  | ContentTypeError
  | WSServerHandshakeError
  | ClientHttpProxyError
  | ClientConnectionError
  | ClientOSError
  | ClientConnectorError
  | ClientProxyConnectionError
  | ServerConnectionError
  | ServerDisconnectedError
  | ServerTimeoutError
  | ServerFingerprintMismatch
  | ClientPayloadError
  | InvalidURL
  | ClientConnectorSSLError
  | ClientConnectorCertificateError.

#[global] Instance cls_eq_dec : EqDecision cls.
Proof. solve_decision. Defined.

(** [__name__] of a class. *)
Definition class_name (c : cls) : string :=
  match c with
  | object => "object"
  | BaseException => "BaseException"
  | Exception => "Exception"
  | OSError => "OSError"
  | ValueError => "ValueError"
  | futures_Error => "Error"
  | asyncio_TimeoutError => "TimeoutError"
  | ssl_SSLError => "SSLError"
  | ssl_CertificateError => "CertificateError"
  | ClientError => "ClientError"
  | ClientResponseError => "ClientResponseError"
  | ContentTypeError => "ContentTypeError"
  | WSServerHandshakeError => "WSServerHandshakeError"
  | ClientHttpProxyError => "ClientHttpProxyError"
  | ClientConnectionError => "ClientConnectionError"
  | ClientOSError => "ClientOSError"
  | ClientConnectorError => "ClientConnectorError"
  | ClientProxyConnectionError => "ClientProxyConnectionError"
  | ServerConnectionError => "ServerConnectionError"
  | ServerDisconnectedError => "ServerDisconnectedError"
  | ServerTimeoutError => "ServerTimeoutError"
  | ServerFingerprintMismatch => "ServerFingerprintMismatch"
  | ClientPayloadError => "ClientPayloadError"
  | InvalidURL => "InvalidURL"
  | ClientConnectorSSLError => "ClientConnectorSSLError"
  | ClientConnectorCertificateError => "ClientConnectorCertificateError"
  end.

(** The module starts with [try: import ssl / except ImportError: ssl = None].
    The boolean [tls] below is [ssl is not None]. *)

(** [if ssl is not None: ... else: ...] (lines 167-178 of the source). *)
Definition certificate_errors (tls : bool) : list cls :=
  if tls then [ssl_CertificateError] else [].

Definition certificate_errors_bases (tls : bool) : list cls :=
  if tls then [ClientConnectorError; ssl_CertificateError]
  else [ClientConnectorError; ValueError].

Definition ssl_errors (tls : bool) : list cls :=
  if tls then [ssl_SSLError] else [].

Definition ssl_error_bases (tls : bool) : list cls :=
  if tls then [ClientConnectorError; ssl_SSLError]
  else [ClientConnectorError].

(** The base classes in each [class] statement.  For the runtime's classes
    these are Python's: [ssl.CertificateError] derives from [ValueError] and
    [ssl.SSLError] from [OSError]. *)
Definition bases (tls : bool) (c : cls) : list cls :=
  match c with
  | object => []
  | BaseException => [object]
  | Exception => [BaseException]
  | OSError => [Exception]
  | ValueError => [Exception]
  | futures_Error => [Exception]
  | asyncio_TimeoutError => [futures_Error]
  | ssl_SSLError => [OSError]
  | ssl_CertificateError => [ValueError]
  | ClientError => [Exception]
  | ClientResponseError => [ClientError]
  | ContentTypeError => [ClientResponseError]
  | WSServerHandshakeError => [ClientResponseError]
  | ClientHttpProxyError => [ClientResponseError]
  | ClientConnectionError => [ClientError]
  | ClientOSError => [ClientConnectionError; OSError]
  | ClientConnectorError => [ClientOSError]
  | ClientProxyConnectionError => [ClientConnectorError]
  | ServerConnectionError => [ClientConnectionError]
  | ServerDisconnectedError => [ServerConnectionError]
  | ServerTimeoutError => [ServerConnectionError; asyncio_TimeoutError]
  | ServerFingerprintMismatch => [ServerConnectionError]
  | ClientPayloadError => [ClientError]
  | InvalidURL => [ClientError; ValueError]
  | ClientConnectorSSLError => ssl_error_bases tls
  | ClientConnectorCertificateError => certificate_errors_bases tls
  end.

(** ** Method resolution order (C3 linearisation) *)

Definition in_tail (c : cls) (s : list cls) : bool :=
  match s with
  | [] => false
  | _ :: t => bool_decide (c ∈ t)
  end.

Definition good_head (seqs : list (list cls)) (c : cls) : bool :=
  forallb (fun s => negb (in_tail c s)) seqs.

Fixpoint find_head (seqs todo : list (list cls)) : option cls :=
  match todo with
  | [] => None
  | [] :: rest => find_head seqs rest
  | (c :: _) :: rest =>
      if good_head seqs c then Some c else find_head seqs rest
  end.

Definition drop_head (c : cls) (s : list cls) : list cls :=
  match s with
  | [] => []
  | h :: t => if decide (h = c) then t else s
  end.

Definition nonempty (s : list cls) : bool :=
  match s with [] => false | _ => true end.

Fixpoint merge (fuel : nat) (seqs : list (list cls)) : option (list cls) :=
  match List.filter nonempty seqs with
  | [] => Some []
  | live =>
      match fuel with
      | O => None
      | S n =>
          c ← find_head live live;
          r ← merge n (map (drop_head c) live);
          Some (c :: r)
      end
  end.

Fixpoint mro_fuel (fuel : nat) (tls : bool) (c : cls) : option (list cls) :=
  match fuel with
  | O => None
  | S n =>
      ls ← mapM (mro_fuel n tls) (bases tls c);
      r ← merge 64 (ls ++ [bases tls c]);
      Some (c :: r)
  end.

(** [c.__mro__]; [None] when the class statement itself would be rejected
    for lack of a consistent order. *)
Definition class_mro (tls : bool) (c : cls) : option (list cls) :=
  mro_fuel 16 tls c.

Definition mro (tls : bool) (c : cls) : list cls :=
  default [] (class_mro tls c).

(** [issubclass(c, d)]. *)
Definition issubclass (tls : bool) (c d : cls) : bool :=
  bool_decide (d ∈ mro tls c).

(** ** Values *)

(** The values the exceptions carry.  A Python [str] is a Rocq [string]
    whose characters are read as code points below 256.  [VObj] is an
    instance of a class defined elsewhere (a connection key, a request
    descriptor, a response, an [OSError] or [ssl.CertificateError] raised by
    the connector): its class name, the texts [str()] and [repr()] give for
    it, and the attributes it answers to. *)
Inductive value : Type :=
  | VNone
  | VBool (b : bool)
  | VInt (n : Z)
  | VStr (s : string)
  | VTuple (vs : list value)
  | VObj (cname : string) (as_str as_repr : string)
         (attrs : list (string * value)).

Inductive error : Set := AttributeError | TypeError | IndexError.

(** A computation that returns or raises. *)
Inductive result (A : Type) : Type :=
  | Ok (a : A)
  | Raise (e : error).
Arguments Ok {A} a.
Arguments Raise {A} e.

#[global] Instance result_ret : MRet result := fun A a => Ok a.
#[global] Instance result_bind : MBind result := fun A B f m =>
  match m with
  | Ok a => f a
  | Raise e => Raise e
  end.

Definition is_ok {A} (r : result A) : bool :=
  match r with Ok _ => true | Raise _ => false end.

(** *** Text of a value: [str()] and [repr()] *)

Definition quote1 : ascii := ascii_of_nat 39.
Definition quote2 : ascii := ascii_of_nat 34.
Definition backslash : ascii := ascii_of_nat 92.

Definition hex_digit (n : nat) : ascii :=
  default "0"%char ((list_ascii_of_string "0123456789abcdef") !! n).

Definition hex_escape (a : ascii) : string :=
  let n := nat_of_ascii a in
  String backslash
    (String "x" (String (hex_digit (n / 16)) (String (hex_digit (n mod 16)) ""))).

Fixpoint has_char (a : ascii) (s : string) : bool :=
  match s with
  | EmptyString => false
  | String b t => if decide (a = b) then true else has_char a t
  end.

(** One character of the [repr] of a string, for the chosen quote. *)
Definition repr_char (quote a : ascii) : string :=
  let n := nat_of_ascii a in
  if decide (a = quote ∨ a = backslash) then String backslash (String a "")
  else if decide (n = 9) then String backslash "t"
  else if decide (n = 10) then String backslash "n"
  else if decide (n = 13) then String backslash "r"
  else if decide (n < 32 ∨ n = 127)%nat then hex_escape a
  else if decide (n < 127)%nat then String a ""
  else if decide (n ≤ 160 ∨ n = 173)%nat then hex_escape a
  else String a "".

Fixpoint repr_chars (quote : ascii) (s : string) : string :=
  match s with
  | EmptyString => ""
  | String a t => repr_char quote a +:+ repr_chars quote t
  end.

Definition repr_str (s : string) : string :=
  let quote :=
    if has_char quote1 s && negb (has_char quote2 s) then quote2 else quote1 in
  String quote (repr_chars quote s +:+ String quote "").

Fixpoint join (sep : string) (l : list string) : string :=
  match l with
  | [] => ""
  | [x] => x
  | x :: rest => x +:+ sep +:+ join sep rest
  end.

Definition tuple_text (items : list string) : string :=
  match items with
  | [x] => "(" +:+ x +:+ ",)"
  | _ => "(" +:+ join ", " items +:+ ")"
  end.

Fixpoint py_repr (v : value) : string :=
  match v with
  | VNone => "None"
  | VBool b => if b then "True" else "False"
  | VInt n => pretty n
  | VStr s => repr_str s
  | VTuple vs => tuple_text (map py_repr vs)
  | VObj _ _ r _ => r
  end.

Definition py_str (v : value) : string :=
  match v with
  | VStr s => s
  | VObj _ s _ _ => s
  | _ => py_repr v
  end.

(** [type(v).__name__] *)
Definition type_name (v : value) : string :=
  match v with
  | VNone => "NoneType"
  | VBool _ => "bool"
  | VInt _ => "int"
  | VStr _ => "str"
  | VTuple _ => "tuple"
  | VObj cname _ _ _ => cname
  end.

Fixpoint assoc (name : string) (l : list (string * value)) : option value :=
  match l with
  | [] => None
  | (k, v) :: rest => if decide (k = name) then Some v else assoc name rest
  end.

(** [v.name] for a value that is not one of this module's exceptions.  The
    names the module reads this way are host, port, ssl, errno, strerror
    and args; none of them exists on None, a bool, an int, a str or a
    tuple. *)
Definition getattr_value (v : value) (name : string) : result value :=
  match v with
  | VObj _ _ _ attrs =>
      match assoc name attrs with
      | Some x => Ok x
      | None => Raise AttributeError
      end
  | _ => Raise AttributeError
  end.

(** [needle in hay] on strings. *)
Fixpoint starts_with (p s : string) : bool :=
  match p, s with
  | EmptyString, _ => true
  | String a p', String b s' => if decide (a = b) then starts_with p' s' else false
  | String _ _, EmptyString => false
  end.

Fixpoint contains (hay needle : string) : bool :=
  starts_with needle hay ||
  match hay with
  | EmptyString => false
  | String _ t => contains t needle
  end.

(** ** Instances *)

(** An exception instance: its class, the [args] tuple every
    [BaseException] has, the four C-level slots of [OSError] ([None] while
    never set; they read as Python's None), and the instance [__dict__]. *)
Record instance : Type := Instance {
  i_class : cls;
  i_args : list value;
  i_errno : option value;
  i_strerror : option value;
  i_filename : option value;
  i_filename2 : option value;
  i_dict : gmap string value
}.

Definition blank (c : cls) : instance :=
  {| i_class := c; i_args := []; i_errno := None; i_strerror := None;
     i_filename := None; i_filename2 := None; i_dict := ∅ |}.

Definition set_args (self : instance) (args : list value) : instance :=
  {| i_class := i_class self; i_args := args; i_errno := i_errno self;
     i_strerror := i_strerror self; i_filename := i_filename self;
     i_filename2 := i_filename2 self; i_dict := i_dict self |}.

Definition set_dict (self : instance) (d : gmap string value) : instance :=
  {| i_class := i_class self; i_args := i_args self; i_errno := i_errno self;
     i_strerror := i_strerror self; i_filename := i_filename self;
     i_filename2 := i_filename2 self; i_dict := d |}.

(** [isinstance(self, c)] *)
Definition isinstance (tls : bool) (self : instance) (c : cls) : bool :=
  issubclass tls (i_class self) c.

(** ** Class namespaces *)

(** The methods each class body defines, among [__new__], [__init__],
    [__str__] and [__repr__].  [object]'s own are shadowed by
    [BaseException]'s in every exception class and are left out. *)
Definition methods (c : cls) : list string :=
  match c with
  | BaseException => ["__new__"; "__init__"; "__str__"; "__repr__"]
  | OSError => ["__new__"; "__init__"; "__str__"]
  | ssl_SSLError => ["__str__"]
  | ClientResponseError => ["__init__"]
  | ClientConnectorError => ["__init__"; "__str__"]
  | ServerDisconnectedError => ["__init__"]
  | ServerFingerprintMismatch => ["__init__"; "__repr__"]
  | InvalidURL => ["__init__"; "__repr__"]
  | ClientConnectorCertificateError => ["__init__"; "__str__"]
  | _ => []
  end.

(** The data descriptors each class defines: the [@property] attributes of
    the module and the slots of the runtime's exceptions. *)
Definition properties (c : cls) : list string :=
  match c with
  | BaseException => ["args"]
  | OSError => ["errno"; "strerror"; "filename"; "filename2"]
  | ClientConnectorError => ["os_error"; "host"; "port"; "ssl"]
  | InvalidURL => ["url"]
  | ClientConnectorCertificateError =>
      ["certificate_error"; "host"; "port"; "ssl"]
  | _ => []
  end.

Fixpoint find_in_mro (table : cls -> list string) (name : string)
    (l : list cls) : option cls :=
  match l with
  | [] => None
  | c :: rest =>
      if bool_decide (name ∈ table c) then Some c
      else find_in_mro table name rest
  end.

(** The class whose method [name] an instance of [c] runs. *)
Definition provider (tls : bool) (c : cls) (name : string) : option cls :=
  find_in_mro methods name (mro tls c).

(** ** Attribute access *)

Definition slot (o : option value) : value := default VNone o.

(** A read of the instance [__dict__]. *)
Definition dict_get (self : instance) (name : string) : result value :=
  match i_dict self !! name with
  | Some v => Ok v
  | None => Raise AttributeError
  end.

(** The properties of [ClientConnectorError] (lines 85-99).  [_conn_key] and
    [_os_error] are no descriptors of any class, so [self._conn_key] reads
    the instance dictionary. *)
Definition ClientConnectorError_os_error (self : instance) : result value :=
  dict_get self "_os_error".

Definition ClientConnectorError_host (self : instance) : result value :=
  k ← dict_get self "_conn_key"; getattr_value k "host".

Definition ClientConnectorError_port (self : instance) : result value :=
  k ← dict_get self "_conn_key"; getattr_value k "port".

Definition ClientConnectorError_ssl (self : instance) : result value :=
  k ← dict_get self "_conn_key"; getattr_value k "ssl".

(** [InvalidURL.url]: [self.args[0]] (lines 159-161). *)
Definition InvalidURL_url (self : instance) : result value :=
  match i_args self with
  | a :: _ => Ok a
  | [] => Raise IndexError
  end.

(** The properties of [ClientConnectorCertificateError] (lines 192-206). *)
Definition ClientConnectorCertificateError_certificate_error
    (self : instance) : result value :=
  dict_get self "_certificate_error".

Definition ClientConnectorCertificateError_host (self : instance)
    : result value :=
  k ← dict_get self "_conn_key"; getattr_value k "host".

Definition ClientConnectorCertificateError_port (self : instance)
    : result value :=
  k ← dict_get self "_conn_key"; getattr_value k "port".

Definition ClientConnectorCertificateError_ssl (self : instance)
    : result value :=
  k ← dict_get self "_conn_key"; getattr_value k "ssl".

Definition property_get (owner : cls) (name : string) (self : instance)
    : result value :=
  match owner, name with
  | BaseException, "args" => Ok (VTuple (i_args self))
  | OSError, "errno" => Ok (slot (i_errno self))
  | OSError, "strerror" => Ok (slot (i_strerror self))
  | OSError, "filename" => Ok (slot (i_filename self))
  | OSError, "filename2" => Ok (slot (i_filename2 self))
  | ClientConnectorError, "os_error" => ClientConnectorError_os_error self
  | ClientConnectorError, "host" => ClientConnectorError_host self
  | ClientConnectorError, "port" => ClientConnectorError_port self
  | ClientConnectorError, "ssl" => ClientConnectorError_ssl self
  | InvalidURL, "url" => InvalidURL_url self
  | ClientConnectorCertificateError, "certificate_error" =>
      ClientConnectorCertificateError_certificate_error self
  | ClientConnectorCertificateError, "host" =>
      ClientConnectorCertificateError_host self
  | ClientConnectorCertificateError, "port" =>
      ClientConnectorCertificateError_port self
  | ClientConnectorCertificateError, "ssl" =>
      ClientConnectorCertificateError_ssl self
  | _, _ => Raise AttributeError
  end.

(** [self.name]: a data descriptor found along the MRO wins over the
    instance dictionary.  (Bound methods are not values of this model.) *)
Definition getattr (tls : bool) (self : instance) (name : string)
    : result value :=
  match find_in_mro properties name (mro tls (i_class self)) with
  | Some owner => property_get owner name self
  | None => dict_get self name
  end.

(** [tuple(v)], which the setter of [args] stores: a tuple is kept, a
    string gives its characters, None, a bool and an int are not iterable.
    (The objects of this model carry attributes only; they are taken as not
    iterable.) *)
Definition as_tuple (v : value) : result (list value) :=
  match v with
  | VTuple vs => Ok vs
  | VStr s => Ok (map (fun a => VStr (String a "")) (list_ascii_of_string s))
  | _ => Raise TypeError
  end.

(** An assignment to one of the slots of [OSError]. *)
Definition set_slot (self : instance) (name : string) (v : value)
    : instance :=
  {| i_class := i_class self; i_args := i_args self;
     i_errno := if decide (name = "errno") then Some v else i_errno self;
     i_strerror :=
       if decide (name = "strerror") then Some v else i_strerror self;
     i_filename :=
       if decide (name = "filename") then Some v else i_filename self;
     i_filename2 :=
       if decide (name = "filename2") then Some v else i_filename2 self;
     i_dict := i_dict self |}.

(** [self.name = v].  A data descriptor found along the MRO takes the
    assignment: [args] of [BaseException] stores [tuple(v)], the slots of
    [OSError] store [v], and the properties of the module have no setter.
    Any other name goes to the instance dictionary. *)
Definition setattr (tls : bool) (self : instance) (name : string) (v : value)
    : result instance :=
  match find_in_mro properties name (mro tls (i_class self)) with
  | Some BaseException => vs ← as_tuple v; Ok (set_args self vs)
  | Some OSError => Ok (set_slot self name v)
  | Some _ => Raise AttributeError
  | None => Ok (set_dict self (<[name := v]> (i_dict self)))
  end.

(** ** Calling a constructor *)

(** A parameter and its default, if it has one. *)
Record param : Type := Param { p_name : string; p_default : option value }.

(** The parameters of a [def] after [self]: those before the [*] may be
    given by position or by keyword, those after it by keyword only. *)
Record signature : Type := Signature {
  positional : list param;
  kwonly : list param
}.

Definition required (name : string) : param := Param name None.
Definition optional (name : string) (d : value) : param := Param name (Some d).

Definition param_names (sg : signature) : list string :=
  map p_name (positional sg ++ kwonly sg).

Definition or_default (p : param) : result value :=
  match p_default p with
  | Some d => Ok d
  | None => Raise TypeError
  end.

(** The value of the [i]-th positional parameter. *)
Definition bind_positional (args : list value) (kw : gmap string value)
    (i : nat) (p : param) : result value :=
  match args !! i, kw !! p_name p with
  | Some v, None => Ok v
  | Some _, Some _ => Raise TypeError
  | None, Some v => Ok v
  | None, None => or_default p
  end.

Definition bind_kwonly (kw : gmap string value) (p : param) : result value :=
  match kw !! p_name p with
  | Some v => Ok v
  | None => or_default p
  end.

Fixpoint bind_positionals (args : list value) (kw : gmap string value)
    (i : nat) (ps : list param) : result (list value) :=
  match ps with
  | [] => Ok []
  | p :: rest =>
      v ← bind_positional args kw i p;
      vs ← bind_positionals args kw (S i) rest;
      Ok (v :: vs)
  end.

Fixpoint bind_kwonlys (kw : gmap string value) (ps : list param)
    : result (list value) :=
  match ps with
  | [] => Ok []
  | p :: rest =>
      v ← bind_kwonly kw p;
      vs ← bind_kwonlys kw rest;
      Ok (v :: vs)
  end.

(** Python's argument binding: the values of the parameters in the order
    of the signature, or [TypeError] for too many positional arguments, an
    unknown keyword, an argument given twice or a missing one. *)
Definition bind (sg : signature) (args : list value) (kw : gmap string value)
    : result (list value) :=
  if bool_decide (length args ≤ length (positional sg))%nat
     && bool_decide (dom kw ⊆ list_to_set (param_names sg))
  then
    ps ← bind_positionals args kw 0 (positional sg);
    ks ← bind_kwonlys kw (kwonly sg);
    Ok (ps ++ ks)%list
  else Raise TypeError.

(** *** Allocation and initialisation by the runtime *)

Definition init_fn : Type :=
  instance -> list value -> gmap string value -> result instance.

(** [BaseException.__new__] keeps the positional arguments of the call as
    [args] and ignores the keywords. *)
Definition BaseException_new (c : cls) (args : list value) : instance :=
  set_args (blank c) args.

(** [BaseException.__init__] stores its positional arguments as [args]
    and takes no keywords. *)
Definition BaseException_init : init_fn := fun self args kw =>
  if bool_decide (kw = ∅) then Ok (set_args self args) else Raise TypeError.

(** [OSError] leaves everything to [__init__] when a subclass overrides
    [__init__] and not [__new__]. *)
Definition oserror_use_init (tls : bool) (c : cls) : bool :=
  bool_decide (provider tls c "__init__" ≠ Some OSError)
  && bool_decide (provider tls c "__new__" = Some OSError).

Definition not_none (o : option value) : bool :=
  match o with
  | None | Some VNone => false
  | Some _ => true
  end.

(** The initialisation shared by [OSError.__new__] and [OSError.__init__]:
    with two to five arguments the first two are errno and strerror, the
    third a file name and the fifth a second file name; with a file name
    [args] keeps the first two only. *)
Definition oserror_init (self : instance) (args : list value) : instance :=
  let parsed := bool_decide (2 ≤ length args ≤ 5)%nat in
  let myerrno := if parsed then args !! 0%nat else None in
  let strerror := if parsed then args !! 1%nat else None in
  let filename := if parsed then args !! 2%nat else None in
  let filename2 := if parsed then args !! 4%nat else None in
  if not_none filename then
    {| i_class := i_class self; i_args := take 2 args;
       i_errno := myerrno; i_strerror := strerror;
       i_filename := filename;
       i_filename2 := if not_none filename2 then filename2
                      else i_filename2 self;
       i_dict := i_dict self |}
  else
    {| i_class := i_class self; i_args := args;
       i_errno := myerrno; i_strerror := strerror;
       i_filename := i_filename self; i_filename2 := i_filename2 self;
       i_dict := i_dict self |}.

Definition OSError_new (tls : bool) (c : cls) (args : list value)
    (kw : gmap string value) : result instance :=
  if oserror_use_init tls c then Ok (blank c)
  else if bool_decide (kw = ∅) then Ok (oserror_init (blank c) args)
  else Raise TypeError.

Definition OSError_init (tls : bool) : init_fn := fun self args kw =>
  if negb (oserror_use_init tls (i_class self)) then Ok self
  else if bool_decide (kw = ∅) then Ok (oserror_init self args)
  else Raise TypeError.

(** The [__new__] an instance of [c] is allocated with. *)
Definition new (tls : bool) (c : cls) (args : list value)
    (kw : gmap string value) : result instance :=
  match provider tls c "__new__" with
  | Some OSError => OSError_new tls c args kw
  | Some BaseException => Ok (BaseException_new c args)
  | _ => Raise TypeError
  end.

(** *** The constructors of the module *)

(** [ClientResponseError.__init__] (lines 38-46). *)
Definition ClientResponseError_signature : signature :=
  {| positional := [required "request_info"; required "history"];
     kwonly := [optional "code" (VInt 0); optional "message" (VStr "");
                optional "headers" VNone] |}.

Definition ClientResponseError_init (tls : bool) (super_init : init_fn)
    (self : instance) (request_info history code message headers : value)
    : result instance :=
  self ← setattr tls self "request_info" request_info;
  self ← setattr tls self "code" code;
  self ← setattr tls self "message" message;
  self ← setattr tls self "headers" headers;
  self ← setattr tls self "history" history;
  super_init self
    [VStr (py_str code +:+ ", message='" +:+ py_str message +:+ "'")] ∅.

(** [ClientConnectorError.__init__] (lines 80-83). *)
Definition ClientConnectorError_signature : signature :=
  {| positional := [required "connection_key"; required "os_error"];
     kwonly := [] |}.

Definition ClientConnectorError_init (tls : bool) (super_init : init_fn)
    (self : instance) (connection_key os_error : value) : result instance :=
  self ← setattr tls self "_conn_key" connection_key;
  self ← setattr tls self "_os_error" os_error;
  errno ← getattr_value os_error "errno";
  strerror ← getattr_value os_error "strerror";
  super_init self [errno; strerror] ∅.

(** [ServerDisconnectedError.__init__] (lines 121-122). *)
Definition ServerDisconnectedError_signature : signature :=
  {| positional := [optional "message" VNone]; kwonly := [] |}.

Definition ServerDisconnectedError_init (tls : bool) (self : instance)
    (message : value) : result instance :=
  setattr tls self "message" message.

(** [ServerFingerprintMismatch.__init__] (lines 132-136). *)
Definition ServerFingerprintMismatch_signature : signature :=
  {| positional := [required "expected"; required "got"; required "host";
                    required "port"];
     kwonly := [] |}.

Definition ServerFingerprintMismatch_init (tls : bool) (self : instance)
    (expected got host port : value) : result instance :=
  self ← setattr tls self "expected" expected;
  self ← setattr tls self "got" got;
  self ← setattr tls self "host" host;
  setattr tls self "port" port.

(** [InvalidURL.__init__] (lines 156-157). *)
Definition InvalidURL_signature : signature :=
  {| positional := [required "url"]; kwonly := [] |}.

Definition InvalidURL_init (super_init : init_fn) (self : instance)
    (url : value) : result instance :=
  super_init self [url] ∅.

(** [ClientConnectorCertificateError.__init__] (lines 188-190). *)
Definition ClientConnectorCertificateError_signature : signature :=
  {| positional := [required "connection_key"; required "certificate_error"];
     kwonly := [] |}.

Definition ClientConnectorCertificateError_init (tls : bool)
    (self : instance) (connection_key certificate_error : value)
    : result instance :=
  self ← setattr tls self "_conn_key" connection_key;
  setattr tls self "_certificate_error" certificate_error.

(** The [__init__] that class [c] defines, run on the arguments of a call;
    [super_init] is what [super().__init__] resolves to inside it. *)
Definition run_init (tls : bool) (c : cls) (super_init : init_fn) : init_fn :=
  fun self args kw =>
  match c with
  | BaseException => BaseException_init self args kw
  | OSError => OSError_init tls self args kw
  | ClientResponseError =>
      locals ← bind ClientResponseError_signature args kw;
      match locals with
      | [request_info; history; code; message; headers] =>
          ClientResponseError_init tls super_init self
            request_info history code message headers
      | _ => Raise TypeError
      end
  | ClientConnectorError =>
      locals ← bind ClientConnectorError_signature args kw;
      match locals with
      | [connection_key; os_error] =>
          ClientConnectorError_init tls super_init self connection_key os_error
      | _ => Raise TypeError
      end
  | ServerDisconnectedError =>
      locals ← bind ServerDisconnectedError_signature args kw;
      match locals with
      | [message] => ServerDisconnectedError_init tls self message
      | _ => Raise TypeError
      end
  | ServerFingerprintMismatch =>
      locals ← bind ServerFingerprintMismatch_signature args kw;
      match locals with
      | [expected; got; host; port] =>
          ServerFingerprintMismatch_init tls self expected got host port
      | _ => Raise TypeError
      end
  | InvalidURL =>
      locals ← bind InvalidURL_signature args kw;
      match locals with
      | [url] => InvalidURL_init super_init self url
      | _ => Raise TypeError
      end
  | ClientConnectorCertificateError =>
      locals ← bind ClientConnectorCertificateError_signature args kw;
      match locals with
      | [connection_key; certificate_error] =>
          ClientConnectorCertificateError_init tls self
            connection_key certificate_error
      | _ => Raise TypeError
      end
  | _ => Raise TypeError
  end.

(** The first [__init__] along a (suffix of a) MRO.  Inside the [__init__]
    of class [c], [super().__init__] is the first one after [c]. *)
Fixpoint init_from (tls : bool) (l : list cls) : init_fn :=
  fun self args kw =>
  match l with
  | [] => Raise AttributeError
  | c :: rest =>
      if bool_decide ("__init__" ∈ methods c)
      then run_init tls c (init_from tls rest) self args kw
      else init_from tls rest self args kw
  end.

(** Calling the class [c] with positional arguments [args] and keyword
    arguments [kw]: allocate with [__new__], then run [__init__]. *)
Definition construct (tls : bool) (c : cls) (args : list value)
    (kw : gmap string value) : result instance :=
  self ← new tls c args kw;
  init_from tls (mro tls c) self args kw.

(** The variants the module exports: its [__all__]. *)
Definition all_ : list cls :=
  [ClientError;
   ClientConnectionError;
   ClientOSError; ClientConnectorError; ClientProxyConnectionError;
   ClientConnectorSSLError; ClientConnectorCertificateError;
   ServerConnectionError; ServerTimeoutError; ServerDisconnectedError;
   ServerFingerprintMismatch;
   ClientResponseError; ClientHttpProxyError;
   WSServerHandshakeError; ContentTypeError;
   ClientPayloadError; InvalidURL].

(** ** Diagnostic strings *)

(** [BaseException.__str__]: the empty string, the only argument, or the
    tuple of arguments. *)
Definition BaseException_str (self : instance) : string :=
  match i_args self with
  | [] => ""
  | [a] => py_str a
  | _ => py_str (VTuple (i_args self))
  end.

(** [BaseException.__repr__]: the class name followed by the tuple. *)
Definition BaseException_repr (self : instance) : string :=
  class_name (i_class self) +:+ py_repr (VTuple (i_args self)).

(** [OSError.__str__] *)
Definition OSError_str (self : instance) : string :=
  match i_filename self, i_filename2 self with
  | Some f, Some f2 =>
      "[Errno " +:+ py_str (slot (i_errno self)) +:+ "] "
      +:+ py_str (slot (i_strerror self)) +:+ ": " +:+ py_repr f
      +:+ " -> " +:+ py_repr f2
  | Some f, None =>
      "[Errno " +:+ py_str (slot (i_errno self)) +:+ "] "
      +:+ py_str (slot (i_strerror self)) +:+ ": " +:+ py_repr f
  | None, _ =>
      match i_errno self, i_strerror self with
      | Some e, Some s => "[Errno " +:+ py_str e +:+ "] " +:+ py_str s
      | _, _ => BaseException_str self
      end
  end.

(** [ssl.SSLError.__str__]: strerror when it is a string, else [args]. *)
Definition SSLError_str (self : instance) : string :=
  match i_strerror self with
  | Some (VStr s) => s
  | _ => py_str (VTuple (i_args self))
  end.

(** [ClientConnectorError.__str__] (lines 101-103):
    ['Cannot connect to host {0.host}:{0.port} ssl:{0.ssl} [{1}]'
       .format(self, self.strerror)] *)
Definition ClientConnectorError_str (tls : bool) (self : instance)
    : result string :=
  strerror ← getattr tls self "strerror";
  host ← getattr tls self "host";
  port ← getattr tls self "port";
  ssl ← getattr tls self "ssl";
  Ok ("Cannot connect to host " +:+ py_str host +:+ ":" +:+ py_str port
      +:+ " ssl:" +:+ py_str ssl +:+ " [" +:+ py_str strerror +:+ "]").

(** [ClientConnectorCertificateError.__str__] (lines 208-211):
    ['Cannot connect to host {0.host}:{0.port} ssl:{0.ssl} '
     '[{0.certificate_error.__class__.__name__}: '
     '{0.certificate_error.args}]'.format(self)] *)
Definition ClientConnectorCertificateError_str (tls : bool) (self : instance)
    : result string :=
  host ← getattr tls self "host";
  port ← getattr tls self "port";
  ssl ← getattr tls self "ssl";
  certificate_error ← getattr tls self "certificate_error";
  let name := type_name certificate_error in
  certificate_error ← getattr tls self "certificate_error";
  args ← getattr_value certificate_error "args";
  Ok ("Cannot connect to host " +:+ py_str host +:+ ":" +:+ py_str port
      +:+ " ssl:" +:+ py_str ssl +:+ " [" +:+ name +:+ ": "
      +:+ py_str args +:+ "]").

(** [str(self)] *)
Definition str (tls : bool) (self : instance) : result string :=
  match provider tls (i_class self) "__str__" with
  | Some ClientConnectorCertificateError =>
      ClientConnectorCertificateError_str tls self
  | Some ClientConnectorError => ClientConnectorError_str tls self
  | Some ssl_SSLError => Ok (SSLError_str self)
  | Some OSError => Ok (OSError_str self)
  | Some BaseException => Ok (BaseException_str self)
  | _ => Raise TypeError
  end.

(** [ServerFingerprintMismatch.__repr__] (lines 138-141):
    ['<{} expected={} got={} host={} port={}>'.format(
        self.__class__.__name__, self.expected, self.got,
        self.host, self.port)] *)
Definition ServerFingerprintMismatch_repr (tls : bool) (self : instance)
    : result string :=
  expected ← getattr tls self "expected";
  got ← getattr tls self "got";
  host ← getattr tls self "host";
  port ← getattr tls self "port";
  Ok ("<" +:+ class_name (i_class self) +:+ " expected=" +:+ py_str expected
      +:+ " got=" +:+ py_str got +:+ " host=" +:+ py_str host
      +:+ " port=" +:+ py_str port +:+ ">").

(** [InvalidURL.__repr__] (lines 163-164):
    ['<{} {}>'.format(self.__class__.__name__, self.url)] *)
Definition InvalidURL_repr (tls : bool) (self : instance) : result string :=
  url ← getattr tls self "url";
  Ok ("<" +:+ class_name (i_class self) +:+ " " +:+ py_str url +:+ ">").

(** [repr(self)] *)
Definition repr (tls : bool) (self : instance) : result string :=
  match provider tls (i_class self) "__repr__" with
  | Some ServerFingerprintMismatch => ServerFingerprintMismatch_repr tls self
  | Some InvalidURL => InvalidURL_repr tls self
  | Some BaseException => Ok (BaseException_repr self)
  | _ => Raise TypeError
  end.

(** A piece of text appears in a rendering that succeeded. *)
Definition shows (r : result string) (needle : string) : bool :=
  match r with
  | Ok s => contains s needle
  | Raise _ => false
  end.

(** ** Sample data *)

Definition connection_key (host : string) (port : Z) (ssl : value) : value :=
  VObj "ConnectionKey" "" ""
    [("host", VStr host); ("port", VInt port); ("ssl", ssl)].

Definition os_error (cname : string) (errno : Z) (strerror : string) : value :=
  VObj cname ("[Errno " +:+ pretty errno +:+ "] " +:+ strerror)
    (cname +:+ "(" +:+ pretty errno +:+ ", " +:+ repr_str strerror +:+ ")")
    [("errno", VInt errno); ("strerror", VStr strerror);
     ("args", VTuple [VInt errno; VStr strerror])].

Definition key_example : value := connection_key "example.com" 443 (VBool true).
Definition refused : value :=
  os_error "ConnectionRefusedError" 61 "Connection refused".

Definition certificate_error_example : value :=
  VObj "CertificateError" "hostname 'example.com' doesn't match 'example.org'"
    "CertificateError(...)"
    [("args", VTuple [VStr "hostname mismatch"])].

(** ** Notions the properties are stated with *)

(** The signature of the [__init__] a class defines in the module. *)
Definition init_signature (owner : cls) : option signature :=
  match owner with
  | ClientResponseError => Some ClientResponseError_signature
  | ClientConnectorError => Some ClientConnectorError_signature
  | ServerDisconnectedError => Some ServerDisconnectedError_signature
  | ServerFingerprintMismatch => Some ServerFingerprintMismatch_signature
  | InvalidURL => Some InvalidURL_signature
  | ClientConnectorCertificateError =>
      Some ClientConnectorCertificateError_signature
  | _ => None
  end.

Fixpoint position (name : string) (ps : list param) : option nat :=
  match ps with
  | [] => None
  | p :: rest =>
      if decide (p_name p = name) then Some O else S <$> position name rest
  end.

(** The value a call supplies for parameter [name], by position or by
    keyword; [None] when the call leaves it to the default. *)
Definition supplied (sg : signature) (args : list value)
    (kw : gmap string value) (name : string) : option value :=
  match position name (positional sg) with
  | Some i =>
      match args !! i with
      | Some v => Some v
      | None => kw !! name
      end
  | None => kw !! name
  end.

(** For the [__init__] of each class: its parameters and the attribute
    each is read back through. *)
Definition accessors (owner : cls) : list (string * string) :=
  match owner with
  | ClientResponseError =>
      [("request_info", "request_info"); ("history", "history");
       ("code", "code"); ("message", "message"); ("headers", "headers")]
  | ClientConnectorError => [("os_error", "os_error")]
  | ServerDisconnectedError => [("message", "message")]
  | ServerFingerprintMismatch =>
      [("expected", "expected"); ("got", "got"); ("host", "host");
       ("port", "port")]
  | InvalidURL => [("url", "url")]
  | ClientConnectorCertificateError =>
      [("certificate_error", "certificate_error")]
  | _ => []
  end.

(** The attributes that are read off a parameter's value: the connection
    identity is exposed through its host, port and ssl. *)
Definition derived_accessors (owner : cls) : list (string * string) :=
  match owner with
  | ClientConnectorError | ClientConnectorCertificateError =>
      [("connection_key", "host"); ("connection_key", "port");
       ("connection_key", "ssl")]
  | _ => []
  end.

Definition has_attrs (v : value) (names : list string) : bool :=
  forallb (fun name => is_ok (getattr_value v name)) names.

(** What the renderings of the module read of the stored values: host,
    port and ssl of a stored connection key, args of a stored certificate
    error. *)
Definition formattable (self : instance) : bool :=
  match i_dict self !! "_conn_key" with
  | Some k => has_attrs k ["host"; "port"; "ssl"]
  | None => true
  end
  &&
  match i_dict self !! "_certificate_error" with
  | Some ce => has_attrs ce ["args"]
  | None => true
  end.

(** The families of classes that share an [__init__]. *)
Definition response_errors : list cls :=
  [ClientResponseError; ContentTypeError; WSServerHandshakeError;
   ClientHttpProxyError].

Definition connector_errors : list cls :=
  [ClientConnectorError; ClientProxyConnectionError; ClientConnectorSSLError].

Definition plain_errors : list cls :=
  [ClientError; ClientConnectionError; ServerConnectionError;
   ServerTimeoutError; ClientPayloadError].

(** ** The instances the constructors build *)

(** The instance a [ClientResponseError] (or a subclass) is once its
    parameters are bound. *)
Definition response_error (c : cls)
    (request_info history code message headers : value) : instance :=
  set_args
    (set_dict (blank c)
       (<["history" := history]> (<["headers" := headers]>
        (<["message" := message]> (<["code" := code]>
         (<["request_info" := request_info]> ∅))))))
    [VStr (py_str code +:+ ", message='" +:+ py_str message +:+ "'")].

Definition connector_error (c : cls) (key oserr errno strerror : value)
    : instance :=
  {| i_class := c; i_args := [errno; strerror];
     i_errno := Some errno; i_strerror := Some strerror;
     i_filename := None; i_filename2 := None;
     i_dict := <["_os_error" := oserr]> (<["_conn_key" := key]> ∅) |}.

Definition disconnected_error (args : list value) (message : value) : instance :=
  set_dict (set_args (blank ServerDisconnectedError) args)
    (<["message" := message]> ∅).

Definition fingerprint_mismatch (args : list value)
    (expected got host port : value) : instance :=
  set_dict (set_args (blank ServerFingerprintMismatch) args)
    (<["port" := port]> (<["host" := host]> (<["got" := got]>
     (<["expected" := expected]> ∅)))).

Definition invalid_url (url : value) : instance :=
  set_args (blank InvalidURL) [url].

Definition certificate_error (key cert : value) : instance :=
  set_dict (blank ClientConnectorCertificateError)
    (<["_certificate_error" := cert]> (<["_conn_key" := key]> ∅)).

(** Two instances with the same stored fields: class, [args], the slots of
    [OSError] and the two private attributes of the connector errors. *)
Definition same_stored (e1 e2 : instance) : Prop :=
  i_class e1 = i_class e2
  /\ i_args e1 = i_args e2
  /\ i_errno e1 = i_errno e2
  /\ i_strerror e1 = i_strerror e2
  /\ i_filename e1 = i_filename e2
  /\ i_filename2 e1 = i_filename2 e2
  /\ i_dict e1 !! "_conn_key" = i_dict e2 !! "_conn_key"
  /\ i_dict e1 !! "_certificate_error" = i_dict e2 !! "_certificate_error".

Definition response1 : value := VObj "ClientResponse" "<r1>" "<r1>" [].
Definition response2 : value := VObj "ClientResponse" "<r2>" "<r2>" [].

(** ** Further notions *)

(** The four branches directly under [ClientError]. *)
Definition top_categories : list cls :=
  [ClientResponseError; ClientConnectionError; ClientPayloadError; InvalidURL].

(** The same instance as an instance of another class. *)
Definition set_class (c : cls) (self : instance) : instance :=
  {| i_class := c; i_args := i_args self; i_errno := i_errno self;
     i_strerror := i_strerror self; i_filename := i_filename self;
     i_filename2 := i_filename2 self; i_dict := i_dict self |}.

Definition with_class (c : cls) (r : result instance) : result instance :=
  match r with
  | Ok e => Ok (set_class c e)
  | Raise x => Raise x
  end.

(** The default a signature declares for parameter [name]. *)
Definition default_of (sg : signature) (name : string) : option value :=
  match position name (positional sg) with
  | Some i => positional sg !! i ≫= p_default
  | None =>
      match position name (kwonly sg) with
      | Some j => kwonly sg !! j ≫= p_default
      | None => None
      end
  end.

(** The class whose [__init__] a family of variants shares. *)
Definition family_base (c : cls) : cls :=
  if bool_decide (c ∈ response_errors) then ClientResponseError
  else if bool_decide (c ∈ connector_errors) then ClientConnectorError
  else c.

(** The read-only attributes ([@property]) of each class of the module. *)
Definition module_properties (c : cls) : list string :=
  match c with
  | ClientConnectorError => ["os_error"; "host"; "port"; "ssl"]
  | InvalidURL => ["url"]
  | ClientConnectorCertificateError =>
      ["certificate_error"; "host"; "port"; "ssl"]
  | _ => []
  end.

(** The calls Python rejects. *)
Definition ill_formed (sg : signature) (args : list value)
    (kw : gmap string value) : Prop :=
  (length (positional sg) < length args)%nat
  \/ (exists k, is_Some (kw !! k) /\ k ∉ param_names sg)
  \/ (exists i p, positional sg !! i = Some p
        /\ ((is_Some (args !! i) /\ is_Some (kw !! p_name p))
            \/ (args !! i = None /\ kw !! p_name p = None
                /\ p_default p = None)))
  \/ (exists j p, kwonly sg !! j = Some p
        /\ kw !! p_name p = None /\ p_default p = None).

(** * Properties *)

(** Case analysis on membership in a list written out. *)
Ltac class_cases H :=
  repeat (apply elem_of_cons in H as [->|H]);
  try (apply elem_of_nil in H; contradiction).

Ltac pair_cases H :=
  repeat (apply elem_of_cons in H as [H|H]; [injection H as -> ->|]);
  try (apply elem_of_nil in H; contradiction).

Ltac in_list :=
  repeat first [apply list_elem_of_here | apply list_elem_of_further].

(** ** The class graph *)

Lemma class_mro_defined tls c : class_mro tls c = Some (mro tls c).
Proof. destruct tls, c; vm_compute; reflexivity. Qed.

Example mro_ClientConnectorCertificateError_no_tls :
  mro false ClientConnectorCertificateError =
  [ClientConnectorCertificateError; ClientConnectorError; ClientOSError;
   ClientConnectionError; ClientError; OSError; ValueError; Exception;
   BaseException; object].
Proof. vm_compute. reflexivity. Qed.

Example mro_ClientConnectorSSLError_tls :
  mro true ClientConnectorSSLError =
  [ClientConnectorSSLError; ClientConnectorError; ClientOSError;
   ClientConnectionError; ClientError; ssl_SSLError; OSError; Exception;
   BaseException; object].
Proof. vm_compute. reflexivity. Qed.

Example repr_str_plain : repr_str "AA:BB" = "'AA:BB'".
Proof. vm_compute. reflexivity. Qed.

Example py_str_tuple :
  py_str (VTuple [VStr "AA:BB"; VStr "CC:DD"; VStr "h"; VInt 1234]) =
  "('AA:BB', 'CC:DD', 'h', 1234)".
Proof. vm_compute. reflexivity. Qed.

Example py_str_tuple1 : py_str (VTuple [VInt (-7)]) = "(-7,)".
Proof. vm_compute. reflexivity. Qed.

(** Every class of the module is its own first ancestor. *)
Lemma issubclass_refl tls c : issubclass tls c c = true.
Proof. destruct tls, c; vm_compute; reflexivity. Qed.

(** The [__init__] each class runs. *)
Lemma init_owner_cases tls c owner :
  provider tls c "__init__" = Some owner ->
  (owner = ClientResponseError /\ c ∈ response_errors)
  \/ (owner = ClientConnectorError /\ c ∈ connector_errors)
  \/ (owner = ServerDisconnectedError /\ c = ServerDisconnectedError)
  \/ (owner = ServerFingerprintMismatch /\ c = ServerFingerprintMismatch)
  \/ (owner = InvalidURL /\ c = InvalidURL)
  \/ (owner = ClientConnectorCertificateError
      /\ c = ClientConnectorCertificateError)
  \/ (owner = OSError /\ c ∈ [OSError; ssl_SSLError; ClientOSError])
  \/ (owner = BaseException
      /\ c ∈ ([BaseException; Exception; ValueError; futures_Error;
               asyncio_TimeoutError; ssl_CertificateError] ++ plain_errors)%list).
Proof.
  unfold response_errors, connector_errors, plain_errors.
  intros H.
  assert (Some owner = provider tls c "__init__") as E by done.
  clear H.
  destruct tls, c; vm_compute in E; try discriminate;
    injection E as ->; set_solver.
Qed.

(** ** Argument binding *)

Lemma bind_positional_arg args kw i p v w :
  bind_positional args kw i p = Ok v -> args !! i = Some w -> v = w.
Proof.
  unfold bind_positional. intros H Hw. rewrite Hw in H.
  destruct (kw !! p_name p); congruence.
Qed.

Lemma bind_positional_kw args kw i p v w :
  bind_positional args kw i p = Ok v -> args !! i = None ->
  kw !! p_name p = Some w -> v = w.
Proof.
  unfold bind_positional. intros H Hn Hw. rewrite Hn, Hw in H. congruence.
Qed.

Lemma bind_kwonly_kw kw p v w :
  bind_kwonly kw p = Ok v -> kw !! p_name p = Some w -> v = w.
Proof. unfold bind_kwonly. intros H Hw. rewrite Hw in H. congruence. Qed.

(** A successful binding yields, parameter by parameter, the value of
    [bind_positional] or [bind_kwonly]. *)
Lemma bind_positionals_lookup args kw ps : forall i vs,
  bind_positionals args kw i ps = Ok vs ->
  length vs = length ps /\
  forall j p, ps !! j = Some p ->
    exists v, vs !! j = Some v /\ bind_positional args kw (i + j) p = Ok v.
Proof.
  induction ps as [|p ps IH]; intros i vs H; simpl in H.
  - injection H as <-. split; [reflexivity|]. intros j p Hj. discriminate.
  - destruct (bind_positional args kw i p) as [v|] eqn:Hv; [|discriminate].
    simpl in H.
    destruct (bind_positionals args kw (S i) ps) as [vs'|] eqn:Hvs;
      [|discriminate].
    simpl in H. injection H as <-.
    destruct (IH _ _ Hvs) as [Hlen Hrest]. split; [simpl; congruence|].
    intros [|j] q Hj; simpl in Hj.
    + injection Hj as <-. exists v. rewrite Nat.add_0_r. auto.
    + destruct (Hrest j q Hj) as (w & Hw1 & Hw2). exists w. split; [exact Hw1|].
      replace (i + S j)%nat with (S i + j)%nat by lia. exact Hw2.
Qed.

Lemma bind_kwonlys_lookup kw ps : forall vs,
  bind_kwonlys kw ps = Ok vs ->
  length vs = length ps /\
  forall j p, ps !! j = Some p ->
    exists v, vs !! j = Some v /\ bind_kwonly kw p = Ok v.
Proof.
  induction ps as [|p ps IH]; intros vs H; simpl in H.
  - injection H as <-. split; [reflexivity|]. intros j p Hj. discriminate.
  - destruct (bind_kwonly kw p) as [v|] eqn:Hv; [|discriminate].
    simpl in H.
    destruct (bind_kwonlys kw ps) as [vs'|] eqn:Hvs; [|discriminate].
    simpl in H. injection H as <-.
    destruct (IH _ eq_refl) as [Hlen Hrest]. split; [simpl; congruence|].
    intros [|j] q Hj; simpl in Hj.
    + injection Hj as <-. exists v. auto.
    + exact (Hrest j q Hj).
Qed.

Lemma bind_inv sg args kw locals :
  bind sg args kw = Ok locals ->
  exists ps ks,
    locals = (ps ++ ks)%list
    /\ bind_positionals args kw 0 (positional sg) = Ok ps
    /\ bind_kwonlys kw (kwonly sg) = Ok ks.
Proof.
  unfold bind. intros H.
  destruct (bool_decide _ && bool_decide _); [|discriminate].
  destruct (bind_positionals args kw 0 (positional sg)) as [ps|]; [|discriminate].
  simpl in H.
  destruct (bind_kwonlys kw (kwonly sg)) as [ks|]; [|discriminate].
  simpl in H. injection H as <-. eauto.
Qed.

(** The positional arguments of a successful call are the first values
    bound. *)
Lemma bind_positional_values sg args kw locals i p v :
  bind sg args kw = Ok locals ->
  positional sg !! i = Some p ->
  args !! i = Some v ->
  locals !! i = Some v.
Proof.
  intros H Hp Hv. destruct (bind_inv _ _ _ _ H) as (ps & ks & -> & Hps & _).
  destruct (bind_positionals_lookup _ _ _ _ _ Hps) as [_ Hl].
  destruct (Hl i p Hp) as (w & Hw & Hb). simpl in Hb.
  rewrite (bind_positional_arg _ _ _ _ _ _ Hb Hv) in Hw.
  apply lookup_app_l_Some. exact Hw.
Qed.

Lemma bind_keyword_values sg args kw locals i p v :
  bind sg args kw = Ok locals ->
  positional sg !! i = Some p ->
  args !! i = None ->
  kw !! p_name p = Some v ->
  locals !! i = Some v.
Proof.
  intros H Hp Hn Hv. destruct (bind_inv _ _ _ _ H) as (ps & ks & -> & Hps & _).
  destruct (bind_positionals_lookup _ _ _ _ _ Hps) as [_ Hl].
  destruct (Hl i p Hp) as (w & Hw & Hb). simpl in Hb.
  rewrite (bind_positional_kw _ _ _ _ _ _ Hb Hn Hv) in Hw.
  apply lookup_app_l_Some. exact Hw.
Qed.

Lemma bind_kwonly_values sg args kw locals j p v :
  bind sg args kw = Ok locals ->
  kwonly sg !! j = Some p ->
  kw !! p_name p = Some v ->
  locals !! (length (positional sg) + j)%nat = Some v.
Proof.
  intros H Hp Hv. destruct (bind_inv _ _ _ _ H) as (ps & ks & -> & Hps & Hks).
  destruct (bind_positionals_lookup _ _ _ _ _ Hps) as [Hlen _].
  destruct (bind_kwonlys_lookup _ _ _ Hks) as [_ Hl].
  destruct (Hl j p Hp) as (w & Hw & Hb).
  rewrite (bind_kwonly_kw _ _ _ _ Hb Hv) in Hw.
  rewrite <- Hlen. rewrite lookup_app_r by lia.
  replace (length ps + j - length ps)%nat with j by lia. exact Hw.
Qed.

Lemma bind_length sg args kw locals :
  bind sg args kw = Ok locals ->
  length locals = (length (positional sg) + length (kwonly sg))%nat.
Proof.
  intros H. destruct (bind_inv _ _ _ _ H) as (ps & ks & -> & Hps & Hks).
  destruct (bind_positionals_lookup _ _ _ _ _ Hps) as [Hlen _].
  destruct (bind_kwonlys_lookup _ _ _ Hks) as [Hlen' _].
  rewrite length_app. congruence.
Qed.

(** ** What each constructor builds *)

Lemma construct_response_error tls c args kw :
  c ∈ response_errors ->
  construct tls c args kw =
  locals ← bind ClientResponseError_signature args kw;
  match locals with
  | [request_info; history; code; message; headers] =>
      Ok (response_error c request_info history code message headers)
  | _ => Raise TypeError
  end.
Proof.
  unfold response_errors. intros H.
  destruct tls;
    repeat (apply elem_of_cons in H as [->|H]; [reflexivity|]); inversion H.
Qed.

Lemma construct_connector_error tls c args kw :
  c ∈ connector_errors ->
  construct tls c args kw =
  locals ← bind ClientConnectorError_signature args kw;
  match locals with
  | [connection_key; os_error] =>
      errno ← getattr_value os_error "errno";
      strerror ← getattr_value os_error "strerror";
      Ok (connector_error c connection_key os_error errno strerror)
  | _ => Raise TypeError
  end.
Proof.
  unfold connector_errors. intros H.
  destruct tls;
    repeat (apply elem_of_cons in H as [->|H]; [reflexivity|]); inversion H.
Qed.

Lemma construct_disconnected_error tls args kw :
  construct tls ServerDisconnectedError args kw =
  locals ← bind ServerDisconnectedError_signature args kw;
  match locals with
  | [message] => Ok (disconnected_error args message)
  | _ => Raise TypeError
  end.
Proof. destruct tls; reflexivity. Qed.

Lemma construct_fingerprint_mismatch tls args kw :
  construct tls ServerFingerprintMismatch args kw =
  locals ← bind ServerFingerprintMismatch_signature args kw;
  match locals with
  | [expected; got; host; port] =>
      Ok (fingerprint_mismatch args expected got host port)
  | _ => Raise TypeError
  end.
Proof. destruct tls; reflexivity. Qed.

Lemma construct_invalid_url tls args kw :
  construct tls InvalidURL args kw =
  locals ← bind InvalidURL_signature args kw;
  match locals with
  | [url] => Ok (invalid_url url)
  | _ => Raise TypeError
  end.
Proof. destruct tls; reflexivity. Qed.

Lemma construct_certificate_error tls args kw :
  construct tls ClientConnectorCertificateError args kw =
  locals ← bind ClientConnectorCertificateError_signature args kw;
  match locals with
  | [connection_key; certificate_error_] =>
      Ok (certificate_error connection_key certificate_error_)
  | _ => Raise TypeError
  end.
Proof. destruct tls; reflexivity. Qed.

Lemma construct_plain_error tls c args kw :
  c ∈ plain_errors ->
  construct tls c args kw =
  if bool_decide (kw = ∅) then Ok (set_args (blank c) args)
  else Raise TypeError.
Proof.
  unfold plain_errors. intros H.
  destruct tls;
    repeat (apply elem_of_cons in H as [->|H]; [reflexivity|]); inversion H.
Qed.

Lemma oserror_init_class self args :
  i_class (oserror_init self args) = i_class self.
Proof. unfold oserror_init. destruct (not_none _); reflexivity. Qed.

Lemma construct_os_error tls args kw :
  construct tls ClientOSError args kw =
  if bool_decide (kw = ∅) then Ok (oserror_init (blank ClientOSError) args)
  else Raise TypeError.
Proof.
  unfold construct, new.
  replace (provider tls ClientOSError "__new__") with (Some OSError)
    by (destruct tls; reflexivity).
  unfold OSError_new.
  replace (oserror_use_init tls ClientOSError) with false
    by (destruct tls; reflexivity).
  destruct (bool_decide (kw = ∅)); [|reflexivity].
  replace (mro tls ClientOSError) with
    [ClientOSError; ClientConnectionError; ClientError; OSError; Exception;
     BaseException; object] by (destruct tls; reflexivity).
  change (Ok (oserror_init (blank ClientOSError) args)
          ≫= (fun self => OSError_init tls self args kw)
          = Ok (oserror_init (blank ClientOSError) args)).
  unfold OSError_init. simpl mbind. unfold result_bind.
  rewrite oserror_init_class.
  replace (oserror_use_init tls (i_class (blank ClientOSError))) with false
    by (destruct tls; reflexivity).
  reflexivity.
Qed.

(** ** Text search *)

Lemma append_cons a p rest : String a p +:+ rest = String a (p +:+ rest).
Proof. reflexivity. Qed.

Lemma starts_with_spec p s :
  starts_with p s = true <-> exists rest, s = p +:+ rest.
Proof.
  revert s. induction p as [|a p IH]; intros s; simpl.
  - split; [intros _; exists s; reflexivity | reflexivity].
  - destruct s as [|b s].
    + split; [discriminate | intros [rest H]; discriminate].
    + destruct (decide (a = b)) as [->|Hne].
      * rewrite IH. split; intros [rest H]; exists rest.
        -- rewrite append_cons. congruence.
        -- rewrite append_cons in H. congruence.
      * split; [discriminate|]. intros [rest H].
        rewrite append_cons in H. congruence.
Qed.

(** [contains] is the substring relation. *)
Lemma contains_spec hay needle :
  contains hay needle = true <->
  exists before after, hay = before +:+ needle +:+ after.
Proof.
  induction hay as [|a hay IH]; simpl.
  - rewrite orb_false_r, starts_with_spec. split.
    + intros [rest H]. exists "", rest. exact H.
    + intros (before & after & H). destruct before; [exists after; exact H|].
      discriminate.
  - rewrite orb_true_iff, starts_with_spec, IH. split.
    + intros [[rest H]|(before & after & H)].
      * exists "", rest. exact H.
      * exists (String a before), after. rewrite append_cons. congruence.
    + intros (before & after & H). destruct before as [|b before].
      * left. exists after. exact H.
      * right. exists before, after. rewrite append_cons in H. congruence.
Qed.

(** ** Connector errors *)

(** The host, port and ssl of every connector error are those of the
    connection key in its dictionary. *)
Lemma connector_reads_conn_key tls self name :
  isinstance tls self ClientConnectorError = true ->
  name ∈ ["host"; "port"; "ssl"] ->
  getattr tls self name = (k ← dict_get self "_conn_key"; getattr_value k name).
Proof.
  unfold isinstance, getattr. destruct self as [c a e s f f2 d]. simpl.
  intros Hc Hn.
  destruct tls, c; try (vm_compute in Hc; discriminate); clear Hc;
    repeat (apply elem_of_cons in Hn as [->|Hn]; [reflexivity|]);
    inversion Hn.
Qed.

(** C1 (counterexample): the text of the connector error for
    example.com:443 with TLS requested names the flag [ssl:True]; the
    text [tls:true] does not occur in it. *)
Lemma ClientConnectorError_str_has_no_tls_true :
  exists e,
    construct true ClientConnectorError [key_example; refused] ∅ = Ok e
    /\ str true e
       = Ok "Cannot connect to host example.com:443 ssl:True [Connection refused]"
    /\ shows (str true e) "tls:true" = false.
Proof.
  exists (connector_error ClientConnectorError key_example refused
            (VInt 61) (VStr "Connection refused")).
  split; [vm_compute; reflexivity|].
  split; vm_compute; reflexivity.
Qed.

(** C1 (amended): a [ClientConnectorError] built from the connection key
    (example.com, 443, ssl=True) and the OS error (61, Connection refused)
    answers host, port and ssl with the values of the key; it stores the key
    and the OS error and nothing else, and the three accessors follow the
    stored key; its text contains [example.com:443] and [ssl:True]. *)
Theorem ClientConnectorError_reads_connection_key (tls : bool) :
  exists e,
    construct tls ClientConnectorError [key_example; refused] ∅ = Ok e
    /\ getattr tls e "host" = Ok (VStr "example.com")
    /\ getattr tls e "port" = Ok (VInt 443)
    /\ getattr tls e "ssl" = Ok (VBool true)
    /\ dom (i_dict e) = {["_conn_key"; "_os_error"]}
    /\ (forall k name, name ∈ ["host"; "port"; "ssl"] ->
          getattr tls (set_dict e (<["_conn_key" := k]> (i_dict e))) name
          = getattr_value k name)
    /\ shows (str tls e) "example.com:443" = true
    /\ shows (str tls e) "ssl:True" = true.
Proof.
  exists (connector_error ClientConnectorError key_example refused
            (VInt 61) (VStr "Connection refused")).
  split; [destruct tls; vm_compute; reflexivity|].
  split; [destruct tls; vm_compute; reflexivity|].
  split; [destruct tls; vm_compute; reflexivity|].
  split; [destruct tls; vm_compute; reflexivity|].
  split; [|split; [|split; destruct tls; vm_compute; reflexivity]].
  - unfold connector_error. cbn [i_dict].
    rewrite !dom_insert_L, dom_empty_L. set_solver.
  - intros k name Hn. rewrite connector_reads_conn_key;
      [|destruct tls; vm_compute; reflexivity|exact Hn].
    unfold dict_get, set_dict. cbn [i_dict].
    rewrite lookup_insert_eq. reflexivity.
Qed.

(** ** Classification *)

(** C5: every value that is a [ClientConnectorCertificateError], and
    every value that is a [ClientConnectorSSLError], is a
    [ClientConnectionError] (and a [ClientConnectorError], a [ClientOSError]
    and a [ClientError]), so a handler for connection failures matches it;
    it is also an instance of its own class, and it is an
    [ssl.CertificateError], respectively an [ssl.SSLError], exactly when the
    ssl module is present. *)
Theorem tls_errors_are_connection_errors (tls : bool) (e : instance) (c : cls) :
  c ∈ [ClientConnectorCertificateError; ClientConnectorSSLError] ->
  isinstance tls e c = true ->
  isinstance tls e ClientConnectionError = true
  /\ isinstance tls e ClientConnectorError = true
  /\ isinstance tls e ClientOSError = true
  /\ isinstance tls e ClientError = true
  /\ isinstance tls e
       (if decide (c = ClientConnectorCertificateError)
        then ssl_CertificateError else ssl_SSLError) = tls.
Proof.
  unfold isinstance. destruct e as [ce a en s f f2 d]. cbn [i_class].
  intros Hc He.
  repeat (apply elem_of_cons in Hc as [->|Hc]);
    [| |inversion Hc];
    destruct tls, ce; try (vm_compute in He; discriminate);
    vm_compute; auto.
Qed.

Lemma tls_errors_are_connection_errors_witness :
  isinstance true (certificate_error key_example certificate_error_example)
    ClientConnectionError = true
  /\ isinstance true (certificate_error key_example certificate_error_example)
       ssl_CertificateError = true.
Proof.
  destruct (tls_errors_are_connection_errors true
              (certificate_error key_example certificate_error_example)
              ClientConnectorCertificateError) as (H1 & _ & _ & _ & H2).
  - apply list_elem_of_here.
  - vm_compute. reflexivity.
  - split; [exact H1 | exact H2].
Defined.

(** C2 (counterexample): without the ssl module a
    [ClientConnectorSSLError] is a connector error and no [ValueError]. *)
Lemma ClientConnectorSSLError_without_ssl_is_no_ValueError :
  exists e,
    construct false ClientConnectorSSLError [key_example; refused] ∅ = Ok e
    /\ isinstance false e ClientConnectorError = true
    /\ isinstance false e ValueError = false.
Proof.
  exists (connector_error ClientConnectorSSLError key_example refused
            (VInt 61) (VStr "Connection refused")).
  split; [vm_compute; reflexivity|].
  split; vm_compute; reflexivity.
Qed.

(** C2 (amended): without the ssl module, every
    [ClientConnectorCertificateError] is a connector error and a
    [ValueError]; every [ClientConnectorSSLError] is a connector error and
    not a [ValueError]; neither is an [ssl.SSLError] or an
    [ssl.CertificateError], and the tuples [ssl_errors] and
    [certificate_errors] are empty.  The SSL variant stores what a
    [ClientConnectorError] stores; the certificate variant stores the
    connection key and the certificate error it is given. *)
Theorem classification_without_ssl (c : cls) (args : list value)
    (kw : gmap string value) (e : instance) :
  c ∈ [ClientConnectorCertificateError; ClientConnectorSSLError] ->
  construct false c args kw = Ok e ->
  isinstance false e ClientConnectorError = true
  /\ isinstance false e ValueError
     = bool_decide (c = ClientConnectorCertificateError)
  /\ isinstance false e ssl_SSLError = false
  /\ isinstance false e ssl_CertificateError = false
  /\ ssl_errors false = [] /\ certificate_errors false = []
  /\ dom (i_dict e)
     = (if decide (c = ClientConnectorCertificateError)
        then {["_conn_key"; "_certificate_error"]}
        else {["_conn_key"; "_os_error"]}).
Proof.
  intros Hc H.
  repeat (apply elem_of_cons in Hc as [->|Hc]); [| |inversion Hc].
  - rewrite construct_certificate_error in H.
    destruct (bind _ args kw) as [locals|]; [|discriminate]. simpl in H.
    destruct locals as [|k [|ce [|? ?]]]; try discriminate.
    injection H as <-.
    repeat (split; [vm_compute; reflexivity|]).
    unfold certificate_error, set_dict. cbn [i_dict].
    rewrite !dom_insert_L, dom_empty_L.
    destruct (decide _); [set_solver|congruence].
  - rewrite construct_connector_error in H
      by (unfold connector_errors; set_solver).
    destruct (bind _ args kw) as [locals|]; [|discriminate]. simpl in H.
    destruct locals as [|k [|oe [|? ?]]]; try discriminate.
    destruct (getattr_value oe "errno") as [en|]; [|discriminate].
    simpl in H.
    destruct (getattr_value oe "strerror") as [se|]; [|discriminate].
    simpl in H. injection H as <-.
    repeat (split; [vm_compute; reflexivity|]).
    unfold connector_error. cbn [i_dict].
    rewrite !dom_insert_L, dom_empty_L.
    destruct (decide _); [congruence|set_solver].
Qed.

Lemma classification_without_ssl_witness :
  isinstance false (certificate_error key_example certificate_error_example)
    ValueError = true.
Proof.
  destruct (classification_without_ssl ClientConnectorCertificateError
              [key_example; certificate_error_example] ∅
              (certificate_error key_example certificate_error_example))
    as (_ & H & _).
  - apply list_elem_of_here.
  - vm_compute. reflexivity.
  - exact H.
Defined.

(** C7 (counterexample): without the ssl module the construction of a
    [ClientConnectorSSLError] succeeds, and the value is not classified as
    a [ValueError]. *)
Lemma ClientConnectorSSLError_construct_without_ssl :
  is_ok (construct false ClientConnectorSSLError [key_example; refused] ∅)
  = true
  /\ issubclass false ClientConnectorSSLError ValueError = false.
Proof. split; vm_compute; reflexivity. Qed.

(** C7 (amended): the constructors of [ClientConnectorSSLError] and
    [ClientConnectorCertificateError] do the same with and without the ssl
    module: the same arguments are accepted and the same fields stored.
    Without it the certificate variant is a [ValueError] and a connector
    error; the SSL variant is a connector error and not a [ValueError]. *)
Theorem construct_tls_errors_without_ssl (args : list value)
    (kw : gmap string value) :
  construct false ClientConnectorSSLError args kw
  = construct true ClientConnectorSSLError args kw
  /\ construct false ClientConnectorCertificateError args kw
     = construct true ClientConnectorCertificateError args kw
  /\ is_ok (construct false ClientConnectorSSLError [key_example; refused] ∅)
     = true
  /\ is_ok (construct false ClientConnectorCertificateError
              [key_example; certificate_error_example] ∅) = true
  /\ issubclass false ClientConnectorCertificateError ValueError = true
  /\ issubclass false ClientConnectorCertificateError ClientConnectorError
     = true
  /\ issubclass false ClientConnectorSSLError ClientConnectorError = true
  /\ issubclass false ClientConnectorSSLError ValueError = false.
Proof.
  split.
  { rewrite !construct_connector_error
      by (unfold connector_errors; set_solver). reflexivity. }
  split.
  { rewrite !construct_certificate_error. reflexivity. }
  repeat split; vm_compute; reflexivity.
Qed.

(** ** Fingerprint mismatch *)

(** C4: a [ServerFingerprintMismatch] built from AA:BB, CC:DD, h and 1234
    (by position or by keyword) answers its four attributes with these
    values, and its [repr] shows both fingerprints; built by position, its
    [str] shows them as well. *)
Theorem ServerFingerprintMismatch_example (tls : bool) :
  (exists e,
    construct tls ServerFingerprintMismatch
      [VStr "AA:BB"; VStr "CC:DD"; VStr "h"; VInt 1234] ∅ = Ok e
    /\ getattr tls e "expected" = Ok (VStr "AA:BB")
    /\ getattr tls e "got" = Ok (VStr "CC:DD")
    /\ getattr tls e "host" = Ok (VStr "h")
    /\ getattr tls e "port" = Ok (VInt 1234)
    /\ repr tls e
       = Ok "<ServerFingerprintMismatch expected=AA:BB got=CC:DD host=h port=1234>"
    /\ shows (repr tls e) "AA:BB" = true
    /\ shows (repr tls e) "CC:DD" = true
    /\ shows (str tls e) "AA:BB" = true
    /\ shows (str tls e) "CC:DD" = true)
  /\
  (exists e,
    construct tls ServerFingerprintMismatch []
      (<["expected" := VStr "AA:BB"]> (<["got" := VStr "CC:DD"]>
       (<["host" := VStr "h"]> (<["port" := VInt 1234]> ∅)))) = Ok e
    /\ getattr tls e "expected" = Ok (VStr "AA:BB")
    /\ getattr tls e "got" = Ok (VStr "CC:DD")
    /\ getattr tls e "host" = Ok (VStr "h")
    /\ getattr tls e "port" = Ok (VInt 1234)
    /\ shows (repr tls e) "AA:BB" = true
    /\ shows (repr tls e) "CC:DD" = true).
Proof.
  split.
  - exists (fingerprint_mismatch
              [VStr "AA:BB"; VStr "CC:DD"; VStr "h"; VInt 1234]
              (VStr "AA:BB") (VStr "CC:DD") (VStr "h") (VInt 1234)).
    repeat split; destruct tls; vm_compute; reflexivity.
  - exists (fingerprint_mismatch []
              (VStr "AA:BB") (VStr "CC:DD") (VStr "h") (VInt 1234)).
    repeat split; destruct tls; vm_compute; reflexivity.
Qed.

(** C10 (counterexample): the [str] of a [ServerFingerprintMismatch] built
    from four positional arguments is the text of the tuple of these
    arguments, not the empty string. *)
Lemma ServerFingerprintMismatch_str_is_not_empty :
  exists e,
    construct true ServerFingerprintMismatch
      [VStr "AA:BB"; VStr "CC:DD"; VStr "h"; VInt 1234] ∅ = Ok e
    /\ str true e = Ok "('AA:BB', 'CC:DD', 'h', 1234)"
    /\ str true e <> Ok "".
Proof.
  exists (fingerprint_mismatch
            [VStr "AA:BB"; VStr "CC:DD"; VStr "h"; VInt 1234]
            (VStr "AA:BB") (VStr "CC:DD") (VStr "h") (VInt 1234)).
  split; [vm_compute; reflexivity|].
  split; [vm_compute; reflexivity|]. vm_compute. discriminate.
Qed.

Lemma tuple_text_nonempty items : tuple_text items <> "".
Proof.
  unfold tuple_text. destruct items as [|x [|y rest]];
    rewrite append_cons; discriminate.
Qed.

(** C10 (amended): [ServerFingerprintMismatch.__init__] passes nothing to
    the base class, but the allocation of an exception keeps the positional
    arguments of the call as [args].  So [str] is the base rendering of the
    positional arguments: empty when there is none (all four fields given
    by keyword), the text of the only positional argument when there is
    one, the text of the tuple of the positional arguments otherwise (the
    tuple of the four fields when all are given by position).  It is empty
    exactly when there is no positional argument or the only one has an
    empty text.  [repr] shows the four fields in every case. *)
Theorem ServerFingerprintMismatch_str (tls : bool) (args : list value)
    (kw : gmap string value) (e : instance) :
  construct tls ServerFingerprintMismatch args kw = Ok e ->
  getattr tls e "args" = Ok (VTuple args)
  /\ str tls e
     = Ok (match args with
           | [] => ""
           | [a] => py_str a
           | _ => py_str (VTuple args)
           end)
  /\ (str tls e = Ok ""
      <-> args = [] \/ exists a, args = [a] /\ py_str a = "")
  /\ exists expected got host port,
       getattr tls e "expected" = Ok expected
       /\ getattr tls e "got" = Ok got
       /\ getattr tls e "host" = Ok host
       /\ getattr tls e "port" = Ok port
       /\ (forall a rest, args = a :: rest -> a = expected)
       /\ (length args = 4%nat -> args = [expected; got; host; port])
       /\ repr tls e
          = Ok ("<ServerFingerprintMismatch expected=" +:+ py_str expected
                +:+ " got=" +:+ py_str got +:+ " host=" +:+ py_str host
                +:+ " port=" +:+ py_str port +:+ ">").
Proof.
  intros H. rewrite construct_fingerprint_mismatch in H.
  destruct (bind _ args kw) as [locals|] eqn:Hb; [|discriminate].
  simpl in H.
  destruct locals as [|x [|g [|h [|p [|? ?]]]]]; try discriminate.
  injection H as <-.
  assert (str tls (fingerprint_mismatch args x g h p)
          = Ok (match args with
                | [] => ""
                | [a] => py_str a
                | _ => py_str (VTuple args)
                end)) as Hstr by (destruct tls; reflexivity).
  split; [destruct tls; reflexivity|].
  split; [exact Hstr|].
  split.
  { rewrite Hstr. destruct args as [|a [|b rest]].
    - split; [intros _; left; reflexivity | reflexivity].
    - split.
      + intros E. injection E as E. right. exists a. split; [reflexivity|exact E].
      + intros [E|(a' & E & Ha)]; [discriminate|].
        injection E as <-. rewrite Ha. reflexivity.
    - split.
      + intros E. injection E as E. exfalso.
        exact (tuple_text_nonempty (map py_repr (a :: b :: rest)) E).
      + intros [E|(a' & E & _)]; discriminate. }
  exists x, g, h, p.
  repeat (split; [destruct tls; reflexivity|]).
  split; [|split; [|destruct tls; reflexivity]].
  - intros a rest ->.
    pose proof (bind_positional_values _ _ _ _ 0 (required "expected") a Hb
                  eq_refl eq_refl) as E0.
    simpl in E0. congruence.
  - intros Hlen.
    destruct args as [|a0 [|a1 [|a2 [|a3 [|? ?]]]]]; try discriminate.
    pose proof (bind_positional_values _ _ _ _ 0 (required "expected") a0 Hb
                  eq_refl eq_refl) as E0.
    pose proof (bind_positional_values _ _ _ _ 1 (required "got") a1 Hb
                  eq_refl eq_refl) as E1.
    pose proof (bind_positional_values _ _ _ _ 2 (required "host") a2 Hb
                  eq_refl eq_refl) as E2.
    pose proof (bind_positional_values _ _ _ _ 3 (required "port") a3 Hb
                  eq_refl eq_refl) as E3.
    simpl in E0, E1, E2, E3. congruence.
Qed.

Lemma ServerFingerprintMismatch_str_witness :
  str true
    (fingerprint_mismatch [] (VStr "AA:BB") (VStr "CC:DD") (VStr "h")
       (VInt 1234))
  = Ok "".
Proof.
  destruct (ServerFingerprintMismatch_str true []
              (<["expected" := VStr "AA:BB"]> (<["got" := VStr "CC:DD"]>
               (<["host" := VStr "h"]> (<["port" := VInt 1234]> ∅))))
              (fingerprint_mismatch [] (VStr "AA:BB") (VStr "CC:DD")
                 (VStr "h") (VInt 1234))) as (_ & H & _).
  - vm_compute. reflexivity.
  - exact H.
Defined.

(** ** Invalid URL *)

(** C8: for every string [s], [InvalidURL(s)] answers [url] with [s] and
    is both a [ClientError] and a [ValueError]. *)
Theorem InvalidURL_url_round_trip (tls : bool) (s : string) :
  exists e,
    construct tls InvalidURL [VStr s] ∅ = Ok e
    /\ getattr tls e "url" = Ok (VStr s)
    /\ isinstance tls e ClientError = true
    /\ isinstance tls e ValueError = true.
Proof.
  exists (invalid_url (VStr s)).
  split; [rewrite construct_invalid_url; reflexivity|].
  repeat split; destruct tls; reflexivity.
Qed.

Example InvalidURL_not_a_url :
  (e ← construct true InvalidURL [VStr "not a url"] ∅; getattr true e "url")
  = Ok (VStr "not a url").
Proof. vm_compute. reflexivity. Qed.

(** ** Certificate errors *)

(** C9: the constructor of [ClientConnectorCertificateError] stores the
    connection key and the certificate error and nothing else; it does not
    run the initialisation of [OSError], so errno and strerror read None
    and [args] is empty, although the value is an [OSError] and a
    [ClientConnectionError].  [ClientConnectorError] does run it: its errno,
    strerror and [args] are set. *)
Theorem ClientConnectorCertificateError_skips_OSError_init (tls : bool)
    (args : list value) (kw : gmap string value) (e : instance) :
  construct tls ClientConnectorCertificateError args kw = Ok e ->
  dom (i_dict e) = {["_conn_key"; "_certificate_error"]}
  /\ getattr tls e "errno" = Ok VNone
  /\ getattr tls e "strerror" = Ok VNone
  /\ getattr tls e "args" = Ok (VTuple [])
  /\ isinstance tls e OSError = true
  /\ isinstance tls e ClientConnectionError = true
  /\ forall e', construct tls ClientConnectorError args kw = Ok e' ->
       exists errno strerror,
         getattr tls e' "errno" = Ok errno
         /\ getattr tls e' "strerror" = Ok strerror
         /\ getattr tls e' "args" = Ok (VTuple [errno; strerror]).
Proof.
  intros H. rewrite construct_certificate_error in H.
  destruct (bind _ args kw) as [locals|]; [|discriminate]. simpl in H.
  destruct locals as [|k [|ce [|? ?]]]; try discriminate.
  injection H as <-.
  split.
  { unfold certificate_error, set_dict. cbn [i_dict].
    rewrite !dom_insert_L, dom_empty_L. set_solver. }
  repeat (split; [destruct tls; reflexivity|]).
  intros e' H'.
  rewrite construct_connector_error in H'
    by (unfold connector_errors; set_solver).
  destruct (bind _ args kw) as [locals|]; [|discriminate]. simpl in H'.
  destruct locals as [|k' [|oe [|? ?]]]; try discriminate.
  destruct (getattr_value oe "errno") as [en|]; [|discriminate].
  simpl in H'.
  destruct (getattr_value oe "strerror") as [se|]; [|discriminate].
  simpl in H'. injection H' as <-.
  exists en, se. repeat split; destruct tls; reflexivity.
Qed.

Lemma ClientConnectorCertificateError_skips_OSError_init_witness :
  getattr true (certificate_error key_example certificate_error_example)
    "errno" = Ok VNone
  /\ getattr true (certificate_error key_example certificate_error_example)
       "args" = Ok (VTuple []).
Proof.
  destruct (ClientConnectorCertificateError_skips_OSError_init true
              [key_example; certificate_error_example] ∅
              (certificate_error key_example certificate_error_example))
    as (_ & H1 & _ & H2 & _).
  - vm_compute. reflexivity.
  - split; [exact H1 | exact H2].
Defined.

(** ** Reading the fields back *)

Lemma position_lookup name ps : forall i,
  position name ps = Some i -> exists p, ps !! i = Some p /\ p_name p = name.
Proof.
  induction ps as [|q ps IH]; simpl; intros i H; [discriminate|].
  destruct (decide (p_name q = name)) as [E|_].
  - injection H as <-. exists q. split; [reflexivity | exact E].
  - destruct (position name ps) as [j|]; simpl in H; [|discriminate].
    injection H as <-. exact (IH j eq_refl).
Qed.

(** A value supplied for a positional parameter is the value bound to it. *)
Lemma bind_supplied_positional sg args kw locals name v i :
  bind sg args kw = Ok locals ->
  supplied sg args kw name = Some v ->
  position name (positional sg) = Some i ->
  locals !! i = Some v.
Proof.
  intros Hb Hs Hp. unfold supplied in Hs. rewrite Hp in Hs.
  destruct (position_lookup _ _ _ Hp) as (p & Hl & <-).
  destruct (args !! i) as [w|] eqn:Ha.
  - injection Hs as ->. exact (bind_positional_values _ _ _ _ _ _ _ Hb Hl Ha).
  - exact (bind_keyword_values _ _ _ _ _ _ _ Hb Hl Ha Hs).
Qed.

(** A value supplied for a keyword-only parameter is the value bound to
    it. *)
Lemma bind_supplied_kwonly sg args kw locals name v j :
  bind sg args kw = Ok locals ->
  supplied sg args kw name = Some v ->
  position name (positional sg) = None ->
  position name (kwonly sg) = Some j ->
  locals !! (length (positional sg) + j)%nat = Some v.
Proof.
  intros Hb Hs Hp Hk. unfold supplied in Hs. rewrite Hp in Hs.
  destruct (position_lookup _ _ _ Hk) as (p & Hl & <-).
  exact (bind_kwonly_values _ _ _ _ _ _ _ Hb Hl Hs).
Qed.

(** C6: for every variant and every parameter of its constructor, the
    attribute the parameter is read back through returns the value the call
    supplied, by position or by keyword; host, port and ssl are those of
    the supplied connection key; a variant without a constructor of its own
    returns the arguments of the call as [args], and a [ClientOSError] the
    errno and strerror it is given.  In particular the history of a
    [ClientResponseError] is the sequence supplied, whatever its length. *)
Theorem field_round_trip (tls : bool) (c : cls) (args : list value)
    (kw : gmap string value) (e : instance) (owner : cls) :
  c ∈ all_ ->
  construct tls c args kw = Ok e ->
  provider tls c "__init__" = Some owner ->
  (forall sg p a v,
     init_signature owner = Some sg -> (p, a) ∈ accessors owner ->
     supplied sg args kw p = Some v -> getattr tls e a = Ok v)
  /\ (forall sg p a v,
        init_signature owner = Some sg -> (p, a) ∈ derived_accessors owner ->
        supplied sg args kw p = Some v ->
        getattr tls e a = getattr_value v a)
  /\ (owner = BaseException -> getattr tls e "args" = Ok (VTuple args))
  /\ (owner = OSError -> forall errno strerror,
        args = [errno; strerror] ->
        getattr tls e "errno" = Ok errno
        /\ getattr tls e "strerror" = Ok strerror).
Proof.
  intros Hall H Hown.
  apply (bool_decide_eq_true_2 _) in Hall.
  destruct (init_owner_cases _ _ _ Hown)
    as [[-> Hc]|[[-> Hc]|[[-> ->]|[[-> ->]|[[-> ->]|[[-> ->]|[[-> Hc]|[-> Hc]
       ]]]]]]]; clear Hown.
  - rewrite construct_response_error in H by exact Hc.
    destruct (bind _ args kw) as [locals|] eqn:Hb; [|discriminate].
    simpl in H.
    destruct locals as [|x1 [|x2 [|x3 [|x4 [|x5 [|? ?]]]]]]; try discriminate.
    injection H as <-.
    split; [|split; [|split]]; try discriminate.
    + intros sg p a v Hsg Hpa Hs. injection Hsg as <-.
      unfold accessors in Hpa. pair_cases Hpa; (first
          [ pose proof (bind_supplied_positional _ _ _ _ _ _ _ Hb Hs eq_refl)
              as E
          | pose proof
              (bind_supplied_kwonly _ _ _ _ _ _ _ Hb Hs eq_refl eq_refl)
              as E ];
         simpl in E; injection E as ->);
        unfold response_errors in Hc; class_cases Hc;
        destruct tls; reflexivity.
    + intros sg p a v _ Hpa. apply elem_of_nil in Hpa. contradiction.
  - rewrite construct_connector_error in H by exact Hc.
    destruct (bind _ args kw) as [locals|] eqn:Hb; [|discriminate].
    simpl in H.
    destruct locals as [|k [|oe [|? ?]]]; try discriminate.
    destruct (getattr_value oe "errno") as [en|]; [|discriminate].
    simpl in H.
    destruct (getattr_value oe "strerror") as [se|]; [|discriminate].
    simpl in H. injection H as <-.
    split; [|split; [|split]]; try discriminate.
    + intros sg p a v Hsg Hpa Hs. injection Hsg as <-.
      unfold accessors in Hpa. pair_cases Hpa; (first
          [ pose proof (bind_supplied_positional _ _ _ _ _ _ _ Hb Hs eq_refl)
              as E
          | pose proof
              (bind_supplied_kwonly _ _ _ _ _ _ _ Hb Hs eq_refl eq_refl)
              as E ];
         simpl in E; injection E as ->);
        unfold connector_errors in Hc; class_cases Hc;
        destruct tls; reflexivity.
    + intros sg p a v Hsg Hpa Hs. injection Hsg as <-.
      unfold derived_accessors in Hpa. pair_cases Hpa; (first
          [ pose proof (bind_supplied_positional _ _ _ _ _ _ _ Hb Hs eq_refl)
              as E
          | pose proof
              (bind_supplied_kwonly _ _ _ _ _ _ _ Hb Hs eq_refl eq_refl)
              as E ];
         simpl in E; injection E as ->);
        unfold connector_errors in Hc; class_cases Hc;
        destruct tls; reflexivity.
  - rewrite construct_disconnected_error in H.
    destruct (bind _ args kw) as [locals|] eqn:Hb; [|discriminate].
    simpl in H.
    destruct locals as [|m [|? ?]]; try discriminate.
    injection H as <-.
    split; [|split; [|split]]; try discriminate.
    + intros sg p a v Hsg Hpa Hs. injection Hsg as <-.
      unfold accessors in Hpa. pair_cases Hpa; (first
          [ pose proof (bind_supplied_positional _ _ _ _ _ _ _ Hb Hs eq_refl)
              as E
          | pose proof
              (bind_supplied_kwonly _ _ _ _ _ _ _ Hb Hs eq_refl eq_refl)
              as E ];
         simpl in E; injection E as ->);
        destruct tls; reflexivity.
    + intros sg p a v _ Hpa. apply elem_of_nil in Hpa. contradiction.
  - rewrite construct_fingerprint_mismatch in H.
    destruct (bind _ args kw) as [locals|] eqn:Hb; [|discriminate].
    simpl in H.
    destruct locals as [|x1 [|x2 [|x3 [|x4 [|? ?]]]]]; try discriminate.
    injection H as <-.
    split; [|split; [|split]]; try discriminate.
    + intros sg p a v Hsg Hpa Hs. injection Hsg as <-.
      unfold accessors in Hpa. pair_cases Hpa; (first
          [ pose proof (bind_supplied_positional _ _ _ _ _ _ _ Hb Hs eq_refl)
              as E
          | pose proof
              (bind_supplied_kwonly _ _ _ _ _ _ _ Hb Hs eq_refl eq_refl)
              as E ];
         simpl in E; injection E as ->);
        destruct tls; reflexivity.
    + intros sg p a v _ Hpa. apply elem_of_nil in Hpa. contradiction.
  - rewrite construct_invalid_url in H.
    destruct (bind _ args kw) as [locals|] eqn:Hb; [|discriminate].
    simpl in H.
    destruct locals as [|u [|? ?]]; try discriminate.
    injection H as <-.
    split; [|split; [|split]]; try discriminate.
    + intros sg p a v Hsg Hpa Hs. injection Hsg as <-.
      unfold accessors in Hpa. pair_cases Hpa; (first
          [ pose proof (bind_supplied_positional _ _ _ _ _ _ _ Hb Hs eq_refl)
              as E
          | pose proof
              (bind_supplied_kwonly _ _ _ _ _ _ _ Hb Hs eq_refl eq_refl)
              as E ];
         simpl in E; injection E as ->);
        destruct tls; reflexivity.
    + intros sg p a v _ Hpa. apply elem_of_nil in Hpa. contradiction.
  - rewrite construct_certificate_error in H.
    destruct (bind _ args kw) as [locals|] eqn:Hb; [|discriminate].
    simpl in H.
    destruct locals as [|k [|ce [|? ?]]]; try discriminate.
    injection H as <-.
    split; [|split; [|split]]; try discriminate.
    + intros sg p a v Hsg Hpa Hs. injection Hsg as <-.
      unfold accessors in Hpa. pair_cases Hpa; (first
          [ pose proof (bind_supplied_positional _ _ _ _ _ _ _ Hb Hs eq_refl)
              as E
          | pose proof
              (bind_supplied_kwonly _ _ _ _ _ _ _ Hb Hs eq_refl eq_refl)
              as E ];
         simpl in E; injection E as ->);
        destruct tls; reflexivity.
    + intros sg p a v Hsg Hpa Hs. injection Hsg as <-.
      unfold derived_accessors in Hpa. pair_cases Hpa; (first
          [ pose proof (bind_supplied_positional _ _ _ _ _ _ _ Hb Hs eq_refl)
              as E
          | pose proof
              (bind_supplied_kwonly _ _ _ _ _ _ _ Hb Hs eq_refl eq_refl)
              as E ];
         simpl in E; injection E as ->);
        destruct tls; reflexivity.
  - class_cases Hc; try (vm_compute in Hall; discriminate).
    rewrite construct_os_error in H.
    destruct (bool_decide (kw = ∅)); [|discriminate]. injection H as <-.
    split; [|split; [|split]]; try discriminate.
    intros _ en se ->. split; destruct tls; reflexivity.
  - assert (c ∈ plain_errors) as Hp.
    { apply elem_of_app in Hc as [Hc|Hc]; [|exact Hc].
      class_cases Hc; vm_compute in Hall; discriminate. }
    rewrite construct_plain_error in H by exact Hp.
    destruct (bool_decide (kw = ∅)); [|discriminate]. injection H as <-.
    split; [|split; [|split]]; try discriminate.
    intros _. unfold plain_errors in Hp. class_cases Hp;
      destruct tls; reflexivity.
Qed.

Lemma field_round_trip_witness :
  getattr true
    (response_error ClientResponseError VNone
       (VTuple [response1; response2; response1]) (VInt 0) (VStr "") VNone)
    "history"
  = Ok (VTuple [response1; response2; response1]).
Proof.
  refine (proj1 (field_round_trip true ClientResponseError
                   [VNone; VTuple [response1; response2; response1]] ∅
                   _ ClientResponseError _ _ _)
            ClientResponseError_signature "history" "history" _ _ _ _).
  - unfold all_. set_solver.
  - vm_compute. reflexivity.
  - vm_compute. reflexivity.
  - reflexivity.
  - unfold accessors. set_solver.
  - vm_compute. reflexivity.
Defined.

(** ** Diagnostic strings *)

Lemma getattr_strerror tls self :
  isinstance tls self OSError = true ->
  getattr tls self "strerror" = Ok (slot (i_strerror self)).
Proof.
  unfold isinstance, getattr. destruct self as [c a e s f f2 d]. simpl.
  intros Hc.
  destruct tls, c; try (vm_compute in Hc; discriminate); reflexivity.
Qed.

Lemma getattr_certificate_error tls self :
  i_class self = ClientConnectorCertificateError ->
  getattr tls self "certificate_error" = dict_get self "_certificate_error".
Proof.
  unfold getattr. destruct self as [c a e s f f2 d]. simpl.
  intros ->. destruct tls; reflexivity.
Qed.

(** The [__str__] each variant runs. *)
Lemma str_connector tls self :
  i_class self ∈ connector_errors ->
  str tls self = ClientConnectorError_str tls self.
Proof.
  unfold str. destruct self as [c a e s f f2 d]. cbn [i_class].
  unfold connector_errors. intros Hc. class_cases Hc; destruct tls; reflexivity.
Qed.

Lemma str_certificate tls self :
  i_class self = ClientConnectorCertificateError ->
  str tls self = ClientConnectorCertificateError_str tls self.
Proof.
  unfold str. destruct self as [c a e s f f2 d]. cbn [i_class].
  intros ->. destruct tls; reflexivity.
Qed.

Lemma str_base tls self :
  i_class self ∈ (plain_errors ++ response_errors
                  ++ [ServerDisconnectedError; ServerFingerprintMismatch;
                      InvalidURL])%list ->
  str tls self = Ok (BaseException_str self).
Proof.
  unfold str. destruct self as [c a e s f f2 d]. cbn [i_class].
  unfold plain_errors, response_errors. cbn [app]. intros Hc.
  class_cases Hc; destruct tls; reflexivity.
Qed.

Lemma str_os tls self :
  i_class self = ClientOSError -> str tls self = Ok (OSError_str self).
Proof.
  unfold str. destruct self as [c a e s f f2 d]. cbn [i_class].
  intros ->. destruct tls; reflexivity.
Qed.

Lemma connector_is_OSError tls self :
  i_class self ∈ (ClientConnectorCertificateError :: connector_errors) ->
  isinstance tls self OSError = true
  /\ isinstance tls self ClientConnectorError = true.
Proof.
  unfold isinstance. destruct self as [c a e s f f2 d]. cbn [i_class].
  unfold connector_errors. intros Hc.
  class_cases Hc; destruct tls; split; reflexivity.
Qed.

Lemma all_families c :
  c ∈ all_ ->
  c ∈ connector_errors \/ c = ClientConnectorCertificateError
  \/ c = ClientOSError
  \/ c ∈ (plain_errors ++ response_errors
          ++ [ServerDisconnectedError; ServerFingerprintMismatch;
              InvalidURL])%list.
Proof.
  unfold all_, connector_errors, plain_errors, response_errors. cbn [app].
  intros H. class_cases H; set_solver.
Qed.

(** The rendering of a variant is a function of its class, its [args], its
    [OSError] slots and the two private attributes. *)
Lemma str_of_stored tls e1 e2 :
  i_class e1 ∈ all_ -> same_stored e1 e2 -> str tls e1 = str tls e2.
Proof.
  intros Hall (Hc & Ha & He & Hs & Hf & Hf2 & Hk & Hce).
  assert (i_class e2 ∈ all_) as Hall2 by (rewrite <- Hc; exact Hall).
  destruct (all_families _ Hall) as [H|[H|[H|H]]].
  - assert (i_class e2 ∈ connector_errors) as H2 by (rewrite <- Hc; exact H).
    rewrite !str_connector by assumption.
    unfold ClientConnectorError_str.
    destruct (connector_is_OSError tls e1) as [O1 C1];
      [apply list_elem_of_further; exact H|].
    destruct (connector_is_OSError tls e2) as [O2 C2];
      [apply list_elem_of_further; exact H2|].
    rewrite !getattr_strerror by assumption.
    rewrite (connector_reads_conn_key tls e1 "host"),
      (connector_reads_conn_key tls e1 "port"),
      (connector_reads_conn_key tls e1 "ssl")
      by (assumption || in_list).
    rewrite (connector_reads_conn_key tls e2 "host"),
      (connector_reads_conn_key tls e2 "port"),
      (connector_reads_conn_key tls e2 "ssl")
      by (assumption || in_list).
    unfold dict_get. rewrite Hk, Hs. reflexivity.
  - assert (i_class e2 = ClientConnectorCertificateError) as H2 by congruence.
    rewrite !str_certificate by assumption.
    unfold ClientConnectorCertificateError_str.
    destruct (connector_is_OSError tls e1) as [O1 C1];
      [rewrite H; apply list_elem_of_here|].
    destruct (connector_is_OSError tls e2) as [O2 C2];
      [rewrite H2; apply list_elem_of_here|].
    rewrite (connector_reads_conn_key tls e1 "host"),
      (connector_reads_conn_key tls e1 "port"),
      (connector_reads_conn_key tls e1 "ssl")
      by (assumption || in_list).
    rewrite (connector_reads_conn_key tls e2 "host"),
      (connector_reads_conn_key tls e2 "port"),
      (connector_reads_conn_key tls e2 "ssl")
      by (assumption || in_list).
    rewrite !getattr_certificate_error by assumption.
    unfold dict_get. rewrite Hk, Hce. reflexivity.
  - assert (i_class e2 = ClientOSError) as H2 by congruence.
    rewrite !str_os by assumption.
    unfold OSError_str, BaseException_str. rewrite Ha, He, Hs, Hf, Hf2.
    reflexivity.
  - rewrite !str_base by (try rewrite <- Hc; exact H).
    unfold BaseException_str. rewrite Ha. reflexivity.
Qed.

Lemma construct_class tls c args kw e :
  c ∈ all_ -> construct tls c args kw = Ok e -> i_class e = c.
Proof.
  intros Hall H.
  destruct (all_families _ Hall) as [Hc|[->|[->|Hc]]].
  - rewrite construct_connector_error in H by exact Hc.
    destruct (bind _ args kw) as [locals|]; [|discriminate]. simpl in H.
    destruct locals as [|k [|oe [|? ?]]]; try discriminate.
    destruct (getattr_value oe "errno") as [en|]; [|discriminate].
    simpl in H.
    destruct (getattr_value oe "strerror") as [se|]; [|discriminate].
    simpl in H. injection H as <-. reflexivity.
  - rewrite construct_certificate_error in H.
    destruct (bind _ args kw) as [locals|]; [|discriminate]. simpl in H.
    destruct locals as [|k [|ce [|? ?]]]; try discriminate.
    injection H as <-. reflexivity.
  - rewrite construct_os_error in H.
    destruct (bool_decide (kw = ∅)); [|discriminate]. injection H as <-.
    apply oserror_init_class.
  - apply elem_of_app in Hc as [Hc|Hc];
      [|apply elem_of_app in Hc as [Hc|Hc]].
    + rewrite construct_plain_error in H by exact Hc.
      destruct (bool_decide (kw = ∅)); [|discriminate]. injection H as <-.
      reflexivity.
    + rewrite construct_response_error in H by exact Hc.
      destruct (bind _ args kw) as [locals|]; [|discriminate]. simpl in H.
      destruct locals as [|x1 [|x2 [|x3 [|x4 [|x5 [|? ?]]]]]];
        try discriminate.
      injection H as <-. reflexivity.
    + class_cases Hc.
      * rewrite construct_disconnected_error in H.
        destruct (bind _ args kw) as [locals|]; [|discriminate]. simpl in H.
        destruct locals as [|m [|? ?]]; try discriminate.
        injection H as <-. reflexivity.
      * rewrite construct_fingerprint_mismatch in H.
        destruct (bind _ args kw) as [locals|]; [|discriminate]. simpl in H.
        destruct locals as [|x1 [|x2 [|x3 [|x4 [|? ?]]]]]; try discriminate.
        injection H as <-. reflexivity.
      * rewrite construct_invalid_url in H.
        destruct (bind _ args kw) as [locals|]; [|discriminate]. simpl in H.
        destruct locals as [|u [|? ?]]; try discriminate.
        injection H as <-. reflexivity.
Qed.

(** The dictionary of a variant that is no connector error has neither
    private attribute. *)
Lemma construct_formattable tls c args kw e :
  c ∈ (ClientOSError :: plain_errors ++ response_errors
       ++ [ServerDisconnectedError; ServerFingerprintMismatch;
           InvalidURL])%list ->
  construct tls c args kw = Ok e -> formattable e = true.
Proof.
  intros Hc H.
  apply elem_of_cons in Hc as [->|Hc].
  { rewrite construct_os_error in H.
    destruct (bool_decide (kw = ∅)); [|discriminate]. injection H as <-.
    unfold formattable, oserror_init. destruct (not_none _); reflexivity. }
  apply elem_of_app in Hc as [Hc|Hc];
    [|apply elem_of_app in Hc as [Hc|Hc]].
  - rewrite construct_plain_error in H by exact Hc.
    destruct (bool_decide (kw = ∅)); [|discriminate]. injection H as <-.
    reflexivity.
  - rewrite construct_response_error in H by exact Hc.
    destruct (bind _ args kw) as [locals|]; [|discriminate]. simpl in H.
    destruct locals as [|x1 [|x2 [|x3 [|x4 [|x5 [|? ?]]]]]];
      try discriminate.
    injection H as <-. reflexivity.
  - class_cases Hc.
    + rewrite construct_disconnected_error in H.
      destruct (bind _ args kw) as [locals|]; [|discriminate]. simpl in H.
      destruct locals as [|m [|? ?]]; try discriminate.
      injection H as <-. reflexivity.
    + rewrite construct_fingerprint_mismatch in H.
      destruct (bind _ args kw) as [locals|]; [|discriminate]. simpl in H.
      destruct locals as [|x1 [|x2 [|x3 [|x4 [|? ?]]]]]; try discriminate.
      injection H as <-. reflexivity.
    + rewrite construct_invalid_url in H.
      destruct (bind _ args kw) as [locals|]; [|discriminate]. simpl in H.
      destruct locals as [|u [|? ?]]; try discriminate.
      injection H as <-. reflexivity.
Qed.

(** C3 (counterexample): the text of a [ClientConnectorCertificateError]
    whose certificate error is None cannot be produced: reading [args] of
    None raises AttributeError. *)
Lemma ClientConnectorCertificateError_str_of_None_raises :
  exists e,
    construct true ClientConnectorCertificateError [key_example; VNone] ∅
    = Ok e
    /\ str true e = Raise AttributeError.
Proof.
  exists (certificate_error key_example VNone).
  split; vm_compute; reflexivity.
Qed.

(** C3 (amended): for every constructed variant, [str] succeeds exactly
    when the stored connection key (if the variant stores one) has host,
    port and ssl and the stored certificate error (if it stores one) has
    args; there is no placeholder for a missing one.  Every variant that is
    no connector error always has a text, a [ServerDisconnectedError]
    without message included.  The text is a function of the stored
    fields. *)
Theorem str_succeeds_when_formattable (tls : bool) (c : cls)
    (args : list value) (kw : gmap string value) (e : instance) :
  c ∈ all_ ->
  construct tls c args kw = Ok e ->
  is_ok (str tls e) = formattable e
  /\ (issubclass tls c ClientConnectorError = false -> is_ok (str tls e) = true)
  /\ (forall e', same_stored e' e -> str tls e' = str tls e).
Proof.
  intros Hall H.
  pose proof (construct_class _ _ _ _ _ Hall H) as Hcls.
  split; [|split].
  - destruct (all_families _ Hall) as [Hc|[->|[->|Hc]]].
    + rewrite str_connector by (rewrite Hcls; exact Hc).
      unfold ClientConnectorError_str.
      destruct (connector_is_OSError tls e) as [O1 C1];
        [rewrite Hcls; apply list_elem_of_further; exact Hc|].
      rewrite getattr_strerror by assumption.
      rewrite (connector_reads_conn_key tls e "host"),
        (connector_reads_conn_key tls e "port"),
        (connector_reads_conn_key tls e "ssl")
        by (assumption || in_list).
      rewrite construct_connector_error in H by exact Hc.
      destruct (bind _ args kw) as [locals|]; [|discriminate]. simpl in H.
      destruct locals as [|k [|oe [|? ?]]]; try discriminate.
      destruct (getattr_value oe "errno") as [en|]; [|discriminate].
      simpl in H.
      destruct (getattr_value oe "strerror") as [se|]; [|discriminate].
      simpl in H. injection H as <-.
      unfold formattable, dict_get, connector_error, has_attrs.
      cbn [i_dict i_strerror forallb].
      rewrite lookup_insert_ne by discriminate.
      rewrite lookup_insert_eq.
      rewrite lookup_insert_ne by discriminate.
      rewrite lookup_insert_ne by discriminate.
      rewrite lookup_empty. simpl.
      destruct (getattr_value k "host"); simpl; [|reflexivity].
      destruct (getattr_value k "port"); simpl; [|reflexivity].
      destruct (getattr_value k "ssl"); reflexivity.
    + rewrite str_certificate by exact Hcls.
      unfold ClientConnectorCertificateError_str.
      destruct (connector_is_OSError tls e) as [O1 C1];
        [rewrite Hcls; apply list_elem_of_here|].
      rewrite (connector_reads_conn_key tls e "host"),
        (connector_reads_conn_key tls e "port"),
        (connector_reads_conn_key tls e "ssl")
        by (assumption || in_list).
      rewrite !getattr_certificate_error by assumption.
      rewrite construct_certificate_error in H.
      destruct (bind _ args kw) as [locals|]; [|discriminate]. simpl in H.
      destruct locals as [|k [|ce [|? ?]]]; try discriminate.
      injection H as <-.
      unfold formattable, dict_get, certificate_error, set_dict, has_attrs.
      cbn [i_dict forallb].
      rewrite lookup_insert_eq.
      rewrite lookup_insert_ne by discriminate.
      rewrite lookup_insert_eq. simpl.
      destruct (getattr_value k "host"); simpl; [|reflexivity].
      destruct (getattr_value k "port"); simpl; [|reflexivity].
      destruct (getattr_value k "ssl"); simpl; [|reflexivity].
      destruct (getattr_value ce "args"); reflexivity.
    + rewrite str_os by exact Hcls.
      rewrite (construct_formattable tls ClientOSError args kw e);
        [reflexivity|apply list_elem_of_here|exact H].
    + rewrite str_base by (rewrite Hcls; exact Hc).
      rewrite (construct_formattable tls c args kw e);
        [reflexivity|apply list_elem_of_further; exact Hc|exact H].
  - intros Hn.
    destruct (all_families _ Hall) as [Hc|[->|[->|Hc]]].
    + unfold connector_errors in Hc. class_cases Hc;
        destruct tls; vm_compute in Hn; discriminate.
    + destruct tls; vm_compute in Hn; discriminate.
    + rewrite str_os by exact Hcls. reflexivity.
    + rewrite str_base by (rewrite Hcls; exact Hc). reflexivity.
  - intros e' Hs. apply str_of_stored; [|exact Hs].
    destruct Hs as (-> & _). rewrite Hcls. exact Hall.
Qed.

Lemma str_succeeds_when_formattable_witness :
  is_ok (str true (disconnected_error [] VNone)) = true
  /\ str true (disconnected_error [] VNone) = Ok "".
Proof.
  split; [|vm_compute; reflexivity].
  refine (proj1 (proj2 (str_succeeds_when_formattable true
                          ServerDisconnectedError [] ∅ _ _ _)) _).
  - unfold all_. in_list.
  - vm_compute. reflexivity.
  - vm_compute. reflexivity.
Defined.

(** * Further properties of the module *)

(** ** The class graph *)

(** X1: every class statement of the module is accepted, with and without
    the ssl module: the bases written in the source have a consistent
    linearisation.  It starts with the class, has no repetition, contains
    every direct base and [ClientError], and ends in [Exception],
    [BaseException], [object]. *)
Theorem class_statements_are_consistent (tls : bool) (c : cls) :
  c ∈ all_ ->
  exists l,
    class_mro tls c = Some (c :: l)
    /\ NoDup (c :: l)
    /\ Forall (fun b => b ∈ l) (bases tls c)
    /\ ClientError ∈ c :: l
    /\ exists l', (c :: l = l' ++ [Exception; BaseException; object])%list.
Proof.
  intros Hc. rewrite class_mro_defined.
  assert (exists l, mro tls c = c :: l
                    /\ bool_decide (NoDup (c :: l)) = true
                    /\ bool_decide (Forall (fun b => b ∈ l) (bases tls c)) = true
                    /\ bool_decide (ClientError ∈ c :: l) = true
                    /\ (take (length l - 2) (c :: l)
                        ++ [Exception; BaseException; object])%list = c :: l)
    as (l & E & H1 & H2 & H3 & H4).
  { unfold all_ in Hc. class_cases Hc; destruct tls;
      (eexists; split; [vm_compute; reflexivity|]);
      repeat split; vm_compute; reflexivity. }
  exists l. rewrite E. split; [reflexivity|].
  split; [exact (bool_decide_eq_true_1 _ H1)|].
  split; [exact (bool_decide_eq_true_1 _ H2)|].
  split; [exact (bool_decide_eq_true_1 _ H3)|].
  eexists. symmetry. exact H4.
Qed.

Lemma class_statements_are_consistent_witness :
  exists l,
    class_mro true ClientConnectorCertificateError
    = Some (ClientConnectorCertificateError :: l)
    /\ NoDup (ClientConnectorCertificateError :: l).
Proof.
  destruct (class_statements_are_consistent true
              ClientConnectorCertificateError) as (l & H1 & H2 & _).
  - unfold all_. in_list.
  - exists l. split; [exact H1 | exact H2].
Defined.

(** X2: every exported class other than [ClientError] itself is a
    [ClientError] and lies under exactly one of the four branches
    [ClientResponseError], [ClientConnectionError], [ClientPayloadError] and
    [InvalidURL]: a handler for one branch never catches a value of
    another. *)
Theorem exported_classes_have_one_branch (tls : bool) (c : cls) :
  c ∈ all_ -> c <> ClientError ->
  issubclass tls c ClientError = true
  /\ length (List.filter (issubclass tls c) top_categories) = 1%nat.
Proof.
  intros Hc Hne. unfold all_ in Hc.
  class_cases Hc; try congruence; destruct tls; split; vm_compute; reflexivity.
Qed.

Lemma exported_classes_have_one_branch_witness :
  List.filter (issubclass false ClientConnectorCertificateError) top_categories
  = [ClientConnectionError].
Proof.
  destruct (exported_classes_have_one_branch false
              ClientConnectorCertificateError) as [_ H].
  - unfold all_. in_list.
  - discriminate.
  - vm_compute. reflexivity.
Defined.

(** X3: which exported classes the handlers for the runtime's own
    exceptions catch.  Apart from [ServerTimeoutError], whose second base
    belongs to the runtime, a class is an [OSError] exactly when it is a
    [ClientOSError]; a class is an [asyncio.TimeoutError] exactly when it is
    [ServerTimeoutError]; it is a [ValueError] exactly when it is
    [InvalidURL] or [ClientConnectorCertificateError], whether the ssl
    module is present or not. *)
Theorem runtime_handlers (tls : bool) (c : cls) :
  c ∈ all_ ->
  (c <> ServerTimeoutError ->
   issubclass tls c OSError = issubclass tls c ClientOSError)
  /\ issubclass tls c asyncio_TimeoutError
     = bool_decide (c = ServerTimeoutError)
  /\ issubclass tls c ValueError
     = bool_decide (c ∈ [InvalidURL; ClientConnectorCertificateError]).
Proof.
  intros Hc. unfold all_ in Hc.
  class_cases Hc; destruct tls; repeat split; try intros _;
    vm_compute; reflexivity.
Qed.

Lemma runtime_handlers_witness :
  issubclass true ClientConnectorCertificateError ValueError = true
  /\ issubclass false ClientConnectorCertificateError ValueError = true.
Proof.
  split.
  - destruct (runtime_handlers true ClientConnectorCertificateError)
      as (_ & _ & H); [unfold all_; in_list|].
    rewrite H. vm_compute. reflexivity.
  - destruct (runtime_handlers false ClientConnectorCertificateError)
      as (_ & _ & H); [unfold all_; in_list|].
    rewrite H. vm_compute. reflexivity.
Defined.

(** ** Ill-formed calls *)

Lemma bind_positionals_error args kw ps : forall i err,
  bind_positionals args kw i ps = Raise err -> err = TypeError.
Proof.
  induction ps as [|p ps IH]; intros i err H; simpl in H; [discriminate|].
  unfold bind_positional, or_default in H.
  destruct (args !! i), (kw !! p_name p), (p_default p); simpl in H;
    try (injection H as <-; reflexivity);
    (destruct (bind_positionals args kw (S i) ps) eqn:E; simpl in H;
     [discriminate | injection H as <-; exact (IH _ _ E)]).
Qed.

Lemma bind_kwonlys_error kw ps : forall err,
  bind_kwonlys kw ps = Raise err -> err = TypeError.
Proof.
  induction ps as [|p ps IH]; intros err H; simpl in H; [discriminate|].
  unfold bind_kwonly, or_default in H.
  destruct (kw !! p_name p), (p_default p); simpl in H;
    try (injection H as <-; reflexivity);
    (destruct (bind_kwonlys kw ps) eqn:E; simpl in H;
     [discriminate | injection H as <-; exact (IH _ eq_refl)]).
Qed.

(** Argument binding raises nothing but [TypeError]. *)
Lemma bind_error sg args kw err :
  bind sg args kw = Raise err -> err = TypeError.
Proof.
  unfold bind. intros H.
  destruct (bool_decide _ && bool_decide _);
    [|injection H as <-; reflexivity].
  destruct (bind_positionals args kw 0 (positional sg)) eqn:E1; simpl in H.
  - destruct (bind_kwonlys kw (kwonly sg)) eqn:E2; simpl in H;
      [discriminate|]. injection H as <-. exact (bind_kwonlys_error _ _ _ E2).
  - injection H as <-. exact (bind_positionals_error _ _ _ _ _ E1).
Qed.

Lemma bind_ill_formed sg args kw :
  ill_formed sg args kw -> bind sg args kw = Raise TypeError.
Proof.
  intros H.
  destruct (bind sg args kw) as [locals|err] eqn:Hb;
    [exfalso | rewrite (bind_error _ _ _ _ Hb); reflexivity].
  destruct (bind_inv _ _ _ _ Hb) as (ps & ks & -> & Hps & Hks).
  unfold bind in Hb.
  destruct (bool_decide (length args ≤ length (positional sg))%nat) eqn:G1;
    [|discriminate].
  destruct (bool_decide (dom kw ⊆ list_to_set (param_names sg))) eqn:G2;
    [|discriminate].
  apply bool_decide_eq_true_1 in G1, G2.
  destruct H as [H|[(k & Hk & Hn)|[(i & p & Hp & H)|(j & p & Hp & Hn & Hd)]]].
  - lia.
  - apply Hn. apply elem_of_dom in Hk. apply G2 in Hk.
    apply elem_of_list_to_set in Hk. exact Hk.
  - destruct (bind_positionals_lookup _ _ _ _ _ Hps) as [_ Hl].
    destruct (Hl i p Hp) as (v & _ & Hv). simpl in Hv.
    unfold bind_positional, or_default in Hv.
    destruct H as [[[a Ha] [b Hb']]|(Ha & Hb' & Hd)].
    + rewrite Ha, Hb' in Hv. discriminate.
    + rewrite Ha, Hb', Hd in Hv. discriminate.
  - destruct (bind_kwonlys_lookup _ _ _ Hks) as [_ Hl].
    destruct (Hl j p Hp) as (v & _ & Hv).
    unfold bind_kwonly, or_default in Hv. rewrite Hn, Hd in Hv. discriminate.
Qed.

(** The result of a constructor of the module goes through the binding of
    its arguments. *)
Lemma construct_bind_error tls c args kw owner sg err :
  c ∈ all_ ->
  provider tls c "__init__" = Some owner ->
  init_signature owner = Some sg ->
  bind sg args kw = Raise err ->
  construct tls c args kw = Raise err.
Proof.
  intros Hall Hown Hsg Hb.
  destruct (init_owner_cases _ _ _ Hown)
    as [[-> Hc]|[[-> Hc]|[[-> ->]|[[-> ->]|[[-> ->]|[[-> ->]|[[-> Hc]|[-> Hc]
       ]]]]]]]; try discriminate; injection Hsg as <-.
  - rewrite construct_response_error by exact Hc. rewrite Hb. reflexivity.
  - rewrite construct_connector_error by exact Hc. rewrite Hb. reflexivity.
  - rewrite construct_disconnected_error. rewrite Hb. reflexivity.
  - rewrite construct_fingerprint_mismatch. rewrite Hb. reflexivity.
  - rewrite construct_invalid_url. rewrite Hb. reflexivity.
  - rewrite construct_certificate_error. rewrite Hb. reflexivity.
Qed.

(** X4: a call of a constructor of the module with too many positional
    arguments, an unknown keyword, an argument given both by position and
    by keyword, or a required parameter left out raises [TypeError]; so
    do [code], [message] and [headers] of a [ClientResponseError] given by
    position. *)
Theorem ill_formed_call_raises_TypeError (tls : bool) (c : cls)
    (args : list value) (kw : gmap string value) (owner : cls)
    (sg : signature) :
  c ∈ all_ ->
  provider tls c "__init__" = Some owner ->
  init_signature owner = Some sg ->
  ill_formed sg args kw ->
  construct tls c args kw = Raise TypeError.
Proof.
  intros Hall Hown Hsg Hi.
  exact (construct_bind_error _ _ _ _ _ _ _ Hall Hown Hsg
           (bind_ill_formed _ _ _ Hi)).
Qed.

Lemma ill_formed_call_raises_TypeError_witness :
  construct true ClientResponseError
    [VNone; VTuple []; VInt 404] ∅ = Raise TypeError
  /\ construct true ServerFingerprintMismatch
       [VStr "AA:BB"; VStr "CC:DD"; VStr "h"] ∅ = Raise TypeError.
Proof.
  split.
  - apply (ill_formed_call_raises_TypeError true ClientResponseError _ _
             ClientResponseError ClientResponseError_signature).
    + unfold all_. in_list.
    + vm_compute. reflexivity.
    + reflexivity.
    + left. simpl. lia.
  - apply (ill_formed_call_raises_TypeError true ServerFingerprintMismatch
             _ _ ServerFingerprintMismatch
             ServerFingerprintMismatch_signature).
    + unfold all_. in_list.
    + vm_compute. reflexivity.
    + reflexivity.
    + right. right. left. exists 3%nat, (required "port").
      split; [reflexivity|]. right.
      split; [reflexivity|]. split; [apply lookup_empty | reflexivity].
Defined.

(** ** What construction can raise *)

Lemma bind_positional_supplied args kw i p v :
  bind_positional args kw i p = Ok v -> p_default p = None ->
  match args !! i with
  | Some w => Some w
  | None => kw !! p_name p
  end = Some v.
Proof.
  unfold bind_positional, or_default. intros H Hd. rewrite Hd in H.
  destruct (args !! i), (kw !! p_name p); congruence.
Qed.

Lemma getattr_value_error v name err :
  getattr_value v name = Raise err -> err = AttributeError.
Proof.
  unfold getattr_value. intros H. repeat case_match; congruence.
Qed.

(** X5: the construction of a variant raises nothing but [TypeError] (an
    ill-formed call) or, for the connector errors that read errno and
    strerror off the OS error they are given, [AttributeError] when that
    value lacks one of them. *)
Theorem construct_errors (tls : bool) (c : cls) (args : list value)
    (kw : gmap string value) (err : error) :
  c ∈ all_ ->
  construct tls c args kw = Raise err ->
  err = TypeError
  \/ (err = AttributeError /\ c ∈ connector_errors
      /\ exists oe,
           supplied ClientConnectorError_signature args kw "os_error"
           = Some oe
           /\ has_attrs oe ["errno"; "strerror"] = false).
Proof.
  intros Hall H.
  destruct (all_families _ Hall) as [Hc|[->|[->|Hc]]].
  - rewrite construct_connector_error in H by exact Hc.
    destruct (bind _ args kw) as [locals|e'] eqn:Hb; simpl in H;
      [|injection H as <-; left; exact (bind_error _ _ _ _ Hb)].
    destruct locals as [|k [|oe [|? ?]]];
      try (injection H as <-; left; reflexivity).
    right.
    assert (supplied ClientConnectorError_signature args kw "os_error"
            = Some oe) as Hs.
    { destruct (bind_inv _ _ _ _ Hb) as (ps & ks & E & Hps & Hks).
      simpl in Hks. injection Hks as <-. rewrite app_nil_r in E. subst ps.
      destruct (bind_positionals_lookup _ _ _ _ _ Hps) as [_ Hl].
      destruct (Hl 1%nat (required "os_error") eq_refl) as (v & Hv & Hbp).
      simpl in Hv. injection Hv as <-.
      exact (bind_positional_supplied _ _ _ _ _ Hbp eq_refl). }
    unfold has_attrs. cbn [forallb].
    destruct (getattr_value oe "errno") as [en|e1] eqn:E1; simpl in H.
    + destruct (getattr_value oe "strerror") as [se|e2] eqn:E2; simpl in H;
        [discriminate|].
      injection H as <-. rewrite (getattr_value_error _ _ _ E2).
      split; [reflexivity|]. split; [exact Hc|]. exists oe.
      split; [exact Hs|]. rewrite E1, E2. reflexivity.
    + injection H as <-. rewrite (getattr_value_error _ _ _ E1).
      split; [reflexivity|]. split; [exact Hc|]. exists oe.
      split; [exact Hs|]. rewrite E1. reflexivity.
  - rewrite construct_certificate_error in H.
    destruct (bind _ args kw) as [locals|e'] eqn:Hb; simpl in H;
      [|injection H as <-; left; exact (bind_error _ _ _ _ Hb)].
    destruct locals as [|k [|ce [|? ?]]]; try discriminate;
      injection H as <-; left; reflexivity.
  - rewrite construct_os_error in H.
    destruct (bool_decide (kw = ∅)); [discriminate|].
    injection H as <-. left. reflexivity.
  - left. apply elem_of_app in Hc as [Hc|Hc];
      [|apply elem_of_app in Hc as [Hc|Hc]].
    + rewrite construct_plain_error in H by exact Hc.
      destruct (bool_decide (kw = ∅)); [discriminate|].
      injection H as <-. reflexivity.
    + rewrite construct_response_error in H by exact Hc.
      destruct (bind _ args kw) as [locals|e'] eqn:Hb; simpl in H;
        [|injection H as <-; exact (bind_error _ _ _ _ Hb)].
      destruct locals as [|x1 [|x2 [|x3 [|x4 [|x5 [|? ?]]]]]];
        try discriminate; injection H as <-; reflexivity.
    + class_cases Hc.
      * rewrite construct_disconnected_error in H.
        destruct (bind _ args kw) as [locals|e'] eqn:Hb; simpl in H;
          [|injection H as <-; exact (bind_error _ _ _ _ Hb)].
        destruct locals as [|m [|? ?]]; try discriminate;
          injection H as <-; reflexivity.
      * rewrite construct_fingerprint_mismatch in H.
        destruct (bind _ args kw) as [locals|e'] eqn:Hb; simpl in H;
          [|injection H as <-; exact (bind_error _ _ _ _ Hb)].
        destruct locals as [|x1 [|x2 [|x3 [|x4 [|? ?]]]]]; try discriminate;
          injection H as <-; reflexivity.
      * rewrite construct_invalid_url in H.
        destruct (bind _ args kw) as [locals|e'] eqn:Hb; simpl in H;
          [|injection H as <-; exact (bind_error _ _ _ _ Hb)].
        destruct locals as [|u [|? ?]]; try discriminate;
          injection H as <-; reflexivity.
Qed.

Lemma construct_errors_witness :
  construct true ClientConnectorError [key_example; VNone] ∅
  = Raise AttributeError
  /\ (AttributeError = TypeError
      \/ (AttributeError = AttributeError
          /\ ClientConnectorError ∈ connector_errors
          /\ exists oe,
               supplied ClientConnectorError_signature [key_example; VNone] ∅
                 "os_error" = Some oe
               /\ has_attrs oe ["errno"; "strerror"] = false)).
Proof.
  split; [vm_compute; reflexivity|].
  apply (construct_errors true ClientConnectorError [key_example; VNone] ∅).
  - unfold all_. in_list.
  - vm_compute. reflexivity.
Defined.

(** ** Values are not validated *)

(** X6: the constructors check that their parameters are given, not what
    they are: a call with exactly the positional parameters succeeds
    whatever the values (None included), except that a connector error
    needs an OS error with errno and strerror. *)
Theorem construct_accepts_any_values (tls : bool) (c : cls)
    (args : list value) (owner : cls) (sg : signature) :
  c ∈ all_ ->
  provider tls c "__init__" = Some owner ->
  init_signature owner = Some sg ->
  length args = length (positional sg) ->
  is_ok (construct tls c args ∅)
  = if decide (owner = ClientConnectorError)
    then match args !! 1%nat with
         | Some oe => has_attrs oe ["errno"; "strerror"]
         | None => false
         end
    else true.
Proof.
  intros Hall Hown Hsg Hlen.
  destruct (init_owner_cases _ _ _ Hown)
    as [[-> Hc]|[[-> Hc]|[[-> ->]|[[-> ->]|[[-> ->]|[[-> ->]|[[-> Hc]|[-> Hc]
       ]]]]]]]; try discriminate; injection Hsg as <-; simpl in Hlen.
  - destruct args as [|x1 [|x2 [|? ?]]]; try discriminate.
    rewrite construct_response_error by exact Hc. reflexivity.
  - destruct args as [|x1 [|x2 [|? ?]]]; try discriminate.
    rewrite construct_connector_error by exact Hc.
    change (bind ClientConnectorError_signature [x1; x2] ∅)
      with (Ok [x1; x2] : result (list value)).
    simpl. destruct (getattr_value x2 "errno"); simpl; [|reflexivity].
    destruct (getattr_value x2 "strerror"); reflexivity.
  - destruct args as [|x1 [|? ?]]; try discriminate.
    rewrite construct_disconnected_error. reflexivity.
  - destruct args as [|x1 [|x2 [|x3 [|x4 [|? ?]]]]]; try discriminate.
    rewrite construct_fingerprint_mismatch. reflexivity.
  - destruct args as [|x1 [|? ?]]; try discriminate.
    rewrite construct_invalid_url. reflexivity.
  - destruct args as [|x1 [|x2 [|? ?]]]; try discriminate.
    rewrite construct_certificate_error. reflexivity.
Qed.

Lemma construct_accepts_any_values_witness :
  is_ok (construct true ClientConnectorCertificateError [VNone; VNone] ∅)
  = true.
Proof.
  apply (construct_accepts_any_values true ClientConnectorCertificateError
           [VNone; VNone] ClientConnectorCertificateError
           ClientConnectorCertificateError_signature).
  - unfold all_. in_list.
  - vm_compute. reflexivity.
  - reflexivity.
  - reflexivity.
Defined.

(** ** Defaults *)

Lemma bind_default_positional sg args kw locals name i :
  bind sg args kw = Ok locals ->
  supplied sg args kw name = None ->
  position name (positional sg) = Some i ->
  exists d, default_of sg name = Some d /\ locals !! i = Some d.
Proof.
  intros Hb Hs Hp. unfold supplied in Hs. rewrite Hp in Hs.
  destruct (position_lookup _ _ _ Hp) as (p & Hl & <-).
  destruct (args !! i) as [w|] eqn:Ha; [discriminate|].
  destruct (bind_inv _ _ _ _ Hb) as (ps & ks & -> & Hps & _).
  destruct (bind_positionals_lookup _ _ _ _ _ Hps) as [_ Hlk].
  destruct (Hlk i p Hl) as (v & Hv & Hbp). simpl in Hbp.
  unfold bind_positional, or_default in Hbp. rewrite Ha, Hs in Hbp.
  destruct (p_default p) as [d|] eqn:Hd; [|discriminate].
  injection Hbp as <-. exists d. split.
  - unfold default_of. rewrite Hp, Hl. exact Hd.
  - apply lookup_app_l_Some. exact Hv.
Qed.

Lemma bind_default_kwonly sg args kw locals name j :
  bind sg args kw = Ok locals ->
  supplied sg args kw name = None ->
  position name (positional sg) = None ->
  position name (kwonly sg) = Some j ->
  exists d, default_of sg name = Some d
            /\ locals !! (length (positional sg) + j)%nat = Some d.
Proof.
  intros Hb Hs Hp Hk. unfold supplied in Hs. rewrite Hp in Hs.
  destruct (position_lookup _ _ _ Hk) as (p & Hl & <-).
  destruct (bind_inv _ _ _ _ Hb) as (ps & ks & -> & Hps & Hks).
  destruct (bind_positionals_lookup _ _ _ _ _ Hps) as [Hlen _].
  destruct (bind_kwonlys_lookup _ _ _ Hks) as [_ Hlk].
  destruct (Hlk j p Hl) as (v & Hv & Hbk).
  unfold bind_kwonly, or_default in Hbk. rewrite Hs in Hbk.
  destruct (p_default p) as [d|] eqn:Hd; [|discriminate].
  injection Hbk as <-. exists d. split.
  - unfold default_of. rewrite Hp, Hk, Hl. exact Hd.
  - rewrite <- Hlen. rewrite lookup_app_r by lia.
    replace (length ps + j - length ps)%nat with j by lia. exact Hv.
Qed.

(** X7: a parameter the call does not supply reads back as the default
    the signature declares: 0 for [code], the empty string for [message]
    and None for [headers] of a [ClientResponseError], None for the message
    of a [ServerDisconnectedError]. *)
Theorem defaults_read_back (tls : bool) (c : cls) (args : list value)
    (kw : gmap string value) (e : instance) (owner : cls) (sg : signature)
    (p a : string) :
  c ∈ all_ ->
  construct tls c args kw = Ok e ->
  provider tls c "__init__" = Some owner ->
  init_signature owner = Some sg ->
  (p, a) ∈ accessors owner ->
  supplied sg args kw p = None ->
  exists d, default_of sg p = Some d /\ getattr tls e a = Ok d.
Proof.
  intros Hall H Hown Hsg Hpa Hs.
  destruct (init_owner_cases _ _ _ Hown)
    as [[-> Hc]|[[-> Hc]|[[-> ->]|[[-> ->]|[[-> ->]|[[-> ->]|[[-> Hc]|[-> Hc]
       ]]]]]]]; try discriminate; injection Hsg as <-; clear Hown.
  - rewrite construct_response_error in H by exact Hc.
    destruct (bind _ args kw) as [locals|] eqn:Hb; [|discriminate].
    simpl in H.
    destruct locals as [|x1 [|x2 [|x3 [|x4 [|x5 [|? ?]]]]]]; try discriminate.
    injection H as <-.
    unfold accessors in Hpa. pair_cases Hpa;
      (first
         [ destruct (bind_default_positional _ _ _ _ _ _ Hb Hs eq_refl)
             as (d & Hd & E)
         | destruct (bind_default_kwonly _ _ _ _ _ _ Hb Hs eq_refl eq_refl)
             as (d & Hd & E) ];
       simpl in E; injection E as ->; exists d; split; [exact Hd|]);
      unfold response_errors in Hc; class_cases Hc; destruct tls; reflexivity.
  - rewrite construct_connector_error in H by exact Hc.
    destruct (bind _ args kw) as [locals|] eqn:Hb; [|discriminate].
    simpl in H.
    destruct locals as [|k [|oe [|? ?]]]; try discriminate.
    unfold accessors in Hpa. pair_cases Hpa.
    destruct (bind_default_positional _ _ _ _ _ _ Hb Hs eq_refl)
      as (d & Hd & E).
    vm_compute in Hd. discriminate.
  - rewrite construct_disconnected_error in H.
    destruct (bind _ args kw) as [locals|] eqn:Hb; [|discriminate].
    simpl in H.
    destruct locals as [|m [|? ?]]; try discriminate.
    injection H as <-.
    unfold accessors in Hpa. pair_cases Hpa.
    destruct (bind_default_positional _ _ _ _ _ _ Hb Hs eq_refl)
      as (d & Hd & E).
    simpl in E. injection E as ->. exists d. split; [exact Hd|].
    destruct tls; reflexivity.
  - rewrite construct_fingerprint_mismatch in H.
    destruct (bind _ args kw) as [locals|] eqn:Hb; [|discriminate].
    unfold accessors in Hpa. pair_cases Hpa;
      destruct (bind_default_positional _ _ _ _ _ _ Hb Hs eq_refl)
        as (d & Hd & E); vm_compute in Hd; discriminate.
  - rewrite construct_invalid_url in H.
    destruct (bind _ args kw) as [locals|] eqn:Hb; [|discriminate].
    unfold accessors in Hpa. pair_cases Hpa;
      destruct (bind_default_positional _ _ _ _ _ _ Hb Hs eq_refl)
        as (d & Hd & E); vm_compute in Hd; discriminate.
  - rewrite construct_certificate_error in H.
    destruct (bind _ args kw) as [locals|] eqn:Hb; [|discriminate].
    unfold accessors in Hpa. pair_cases Hpa;
      destruct (bind_default_positional _ _ _ _ _ _ Hb Hs eq_refl)
        as (d & Hd & E); vm_compute in Hd; discriminate.
Qed.

Lemma defaults_read_back_witness :
  exists d,
    default_of ClientResponseError_signature "code" = Some d
    /\ getattr true
         (response_error ClientResponseError VNone (VTuple [])
            (VInt 0) (VStr "") VNone) "code" = Ok d.
Proof.
  apply (defaults_read_back true ClientResponseError [VNone; VTuple []] ∅ _
           ClientResponseError ClientResponseError_signature "code" "code").
  - unfold all_. in_list.
  - vm_compute. reflexivity.
  - vm_compute. reflexivity.
  - reflexivity.
  - unfold accessors. in_list.
  - vm_compute. reflexivity.
Defined.

Example defaults_of_ClientResponseError :
  default_of ClientResponseError_signature "code" = Some (VInt 0)
  /\ default_of ClientResponseError_signature "message" = Some (VStr "")
  /\ default_of ClientResponseError_signature "headers" = Some VNone
  /\ default_of ServerDisconnectedError_signature "message" = Some VNone.
Proof. repeat split; reflexivity. Qed.

(** ** Texts *)

(** X8: the text of a [ClientResponseError] (and of its subclasses) is
    the status code followed by the quoted message, both as stored; it is
    also the only element of [args], and the request descriptor, the
    history and the headers do not appear in it. *)
Theorem ClientResponseError_text (tls : bool) (c : cls) (args : list value)
    (kw : gmap string value) (e : instance) :
  c ∈ response_errors ->
  construct tls c args kw = Ok e ->
  exists code message,
    getattr tls e "code" = Ok code
    /\ getattr tls e "message" = Ok message
    /\ str tls e
       = Ok (py_str code +:+ ", message='" +:+ py_str message +:+ "'")
    /\ getattr tls e "args"
       = Ok (VTuple [VStr (py_str code +:+ ", message='" +:+ py_str message
                           +:+ "'")]).
Proof.
  intros Hc H. rewrite construct_response_error in H by exact Hc.
  destruct (bind _ args kw) as [locals|]; [|discriminate]. simpl in H.
  destruct locals as [|x1 [|x2 [|x3 [|x4 [|x5 [|? ?]]]]]]; try discriminate.
  injection H as <-. exists x3, x4.
  unfold response_errors in Hc.
  class_cases Hc; destruct tls; repeat split; reflexivity.
Qed.

Lemma ClientResponseError_text_witness :
  exists code message,
    getattr true
      (response_error ClientHttpProxyError VNone (VTuple []) (VInt 407)
         (VStr "Proxy Authentication Required") VNone) "code" = Ok code
    /\ str true
         (response_error ClientHttpProxyError VNone (VTuple []) (VInt 407)
            (VStr "Proxy Authentication Required") VNone)
       = Ok (py_str code +:+ ", message='" +:+ py_str message +:+ "'").
Proof.
  destruct (ClientResponseError_text true ClientHttpProxyError
              [VNone; VTuple []]
              (<["code" := VInt 407]>
                 (<["message" := VStr "Proxy Authentication Required"]> ∅))
              (response_error ClientHttpProxyError VNone (VTuple [])
                 (VInt 407) (VStr "Proxy Authentication Required") VNone))
    as (code & message & H1 & _ & H2 & _).
  - unfold response_errors. in_list.
  - vm_compute. reflexivity.
  - exists code, message. split; [exact H1 | exact H2].
Defined.

(** X9: the OS-error fields of a connector error are those of the OS
    error it wraps: errno and strerror are read off [os_error] at
    construction and handed to [OSError.__init__], so they and [args] agree
    with the wrapped error. *)
Theorem connector_error_os_fields (tls : bool) (c : cls) (args : list value)
    (kw : gmap string value) (e : instance) :
  c ∈ connector_errors ->
  construct tls c args kw = Ok e ->
  exists oe errno strerror,
    getattr tls e "os_error" = Ok oe
    /\ getattr_value oe "errno" = Ok errno
    /\ getattr_value oe "strerror" = Ok strerror
    /\ getattr tls e "errno" = Ok errno
    /\ getattr tls e "strerror" = Ok strerror
    /\ getattr tls e "args" = Ok (VTuple [errno; strerror]).
Proof.
  intros Hc H. rewrite construct_connector_error in H by exact Hc.
  destruct (bind _ args kw) as [locals|]; [|discriminate]. simpl in H.
  destruct locals as [|k [|oe [|? ?]]]; try discriminate.
  destruct (getattr_value oe "errno") as [en|] eqn:E1; [|discriminate].
  simpl in H.
  destruct (getattr_value oe "strerror") as [se|] eqn:E2; [|discriminate].
  simpl in H. injection H as <-. exists oe, en, se.
  split; [|split; [exact E1|split; [exact E2|]]];
    unfold connector_errors in Hc;
    class_cases Hc; destruct tls; repeat split; reflexivity.
Qed.

Lemma connector_error_os_fields_witness :
  exists oe errno strerror,
    getattr true
      (connector_error ClientProxyConnectionError key_example refused
         (VInt 61) (VStr "Connection refused")) "os_error" = Ok oe
    /\ getattr_value oe "errno" = Ok errno
    /\ getattr_value oe "strerror" = Ok strerror
    /\ getattr true
         (connector_error ClientProxyConnectionError key_example refused
            (VInt 61) (VStr "Connection refused")) "errno" = Ok errno.
Proof.
  destruct (connector_error_os_fields true ClientProxyConnectionError
              [key_example; refused] ∅
              (connector_error ClientProxyConnectionError key_example refused
                 (VInt 61) (VStr "Connection refused")))
    as (oe & en & se & H1 & H2 & H3 & H4 & _).
  - unfold connector_errors. in_list.
  - vm_compute. reflexivity.
  - exists oe, en, se. auto.
Defined.

(** X10: the text of every connector error ([ClientProxyConnectionError]
    and [ClientConnectorSSLError] included, also when [ssl.SSLError] with
    its own [__str__] is among the bases) is
    [Cannot connect to host HOST:PORT ssl:SSL [STRERROR]], with host, port
    and ssl of the connection key and strerror of the OS error given to the
    constructor. *)
Theorem connector_error_text (tls : bool) (c : cls) (args : list value)
    (kw : gmap string value) (e : instance)
    (key oe host port ssl strerror : value) :
  c ∈ connector_errors ->
  construct tls c args kw = Ok e ->
  supplied ClientConnectorError_signature args kw "connection_key" = Some key ->
  supplied ClientConnectorError_signature args kw "os_error" = Some oe ->
  getattr_value key "host" = Ok host ->
  getattr_value key "port" = Ok port ->
  getattr_value key "ssl" = Ok ssl ->
  getattr_value oe "strerror" = Ok strerror ->
  str tls e
  = Ok ("Cannot connect to host " +:+ py_str host +:+ ":" +:+ py_str port
        +:+ " ssl:" +:+ py_str ssl +:+ " [" +:+ py_str strerror +:+ "]").
Proof.
  intros Hc H Hk Ho Hh Hp Hs Hse.
  rewrite construct_connector_error in H by exact Hc.
  destruct (bind _ args kw) as [locals|] eqn:Hb; [|discriminate].
  simpl in H.
  destruct locals as [|k [|o [|? ?]]]; try discriminate.
  pose proof (bind_supplied_positional _ _ _ _ _ _ _ Hb Hk eq_refl) as E1.
  pose proof (bind_supplied_positional _ _ _ _ _ _ _ Hb Ho eq_refl) as E2.
  simpl in E1, E2. injection E1 as ->. injection E2 as ->.
  destruct (getattr_value oe "errno") as [en|]; [|discriminate].
  simpl in H. rewrite Hse in H. simpl in H. injection H as <-.
  rewrite str_connector by exact Hc.
  unfold ClientConnectorError_str.
  destruct (connector_is_OSError tls
              (connector_error c key oe en strerror)) as [O1 C1];
    [apply list_elem_of_further; exact Hc|].
  rewrite getattr_strerror by assumption.
  rewrite (connector_reads_conn_key tls _ "host"),
    (connector_reads_conn_key tls _ "port"),
    (connector_reads_conn_key tls _ "ssl") by (assumption || in_list).
  unfold dict_get, connector_error. cbn [i_dict i_strerror].
  rewrite lookup_insert_ne by discriminate. rewrite lookup_insert_eq.
  simpl. rewrite Hh. simpl. rewrite Hp. simpl. rewrite Hs. reflexivity.
Qed.

Lemma connector_error_text_witness :
  str true
    (connector_error ClientConnectorSSLError key_example refused
       (VInt 61) (VStr "Connection refused"))
  = Ok "Cannot connect to host example.com:443 ssl:True [Connection refused]".
Proof.
  apply (connector_error_text true ClientConnectorSSLError
           [key_example; refused] ∅ _ key_example refused
           (VStr "example.com") (VInt 443) (VBool true)
           (VStr "Connection refused")).
  - unfold connector_errors. in_list.
  - vm_compute. reflexivity.
  - vm_compute. reflexivity.
  - vm_compute. reflexivity.
  - reflexivity.
  - reflexivity.
  - reflexivity.
  - reflexivity.
Defined.

(** X11: the text of a [ClientConnectorCertificateError] is
    [Cannot connect to host HOST:PORT ssl:SSL [NAME: ARGS]] with host, port
    and ssl of the connection key, the class name of the certificate error
    and its [args]; the (unset) strerror of the instance is not shown. *)
Theorem certificate_error_text (tls : bool) (args : list value)
    (kw : gmap string value) (e : instance)
    (key ce host port ssl cargs : value) :
  construct tls ClientConnectorCertificateError args kw = Ok e ->
  supplied ClientConnectorCertificateError_signature args kw "connection_key"
  = Some key ->
  supplied ClientConnectorCertificateError_signature args kw
    "certificate_error" = Some ce ->
  getattr_value key "host" = Ok host ->
  getattr_value key "port" = Ok port ->
  getattr_value key "ssl" = Ok ssl ->
  getattr_value ce "args" = Ok cargs ->
  str tls e
  = Ok ("Cannot connect to host " +:+ py_str host +:+ ":" +:+ py_str port
        +:+ " ssl:" +:+ py_str ssl +:+ " [" +:+ type_name ce +:+ ": "
        +:+ py_str cargs +:+ "]").
Proof.
  intros H Hk Hce Hh Hp Hs Ha.
  rewrite construct_certificate_error in H.
  destruct (bind _ args kw) as [locals|] eqn:Hb; [|discriminate].
  simpl in H.
  destruct locals as [|k [|o [|? ?]]]; try discriminate.
  pose proof (bind_supplied_positional _ _ _ _ _ _ _ Hb Hk eq_refl) as E1.
  pose proof (bind_supplied_positional _ _ _ _ _ _ _ Hb Hce eq_refl) as E2.
  simpl in E1, E2. injection E1 as ->. injection E2 as ->.
  injection H as <-.
  rewrite str_certificate by reflexivity.
  unfold ClientConnectorCertificateError_str.
  destruct (connector_is_OSError tls (certificate_error key ce)) as [O1 C1];
    [apply list_elem_of_here|].
  rewrite (connector_reads_conn_key tls _ "host"),
    (connector_reads_conn_key tls _ "port"),
    (connector_reads_conn_key tls _ "ssl") by (assumption || in_list).
  rewrite !getattr_certificate_error by reflexivity.
  unfold dict_get, certificate_error, set_dict. cbn [i_dict].
  rewrite lookup_insert_eq.
  rewrite lookup_insert_ne by discriminate. rewrite lookup_insert_eq.
  simpl. rewrite Hh. simpl. rewrite Hp. simpl. rewrite Hs. simpl.
  rewrite Ha. reflexivity.
Qed.

Lemma certificate_error_text_witness :
  str false (certificate_error key_example certificate_error_example)
  = Ok "Cannot connect to host example.com:443 ssl:True [CertificateError: ('hostname mismatch',)]".
Proof.
  apply (certificate_error_text false
           [key_example; certificate_error_example] ∅ _
           key_example certificate_error_example
           (VStr "example.com") (VInt 443) (VBool true)
           (VTuple [VStr "hostname mismatch"])).
  - vm_compute. reflexivity.
  - vm_compute. reflexivity.
  - vm_compute. reflexivity.
  - reflexivity.
  - reflexivity.
  - reflexivity.
  - reflexivity.
Defined.

(** ** Attributes that cannot be assigned *)

(** X12: the accessors declared with [@property] have no setter: on every
    instance of [ClientConnectorError] (its subclasses and
    [ClientConnectorCertificateError] included) an assignment to os_error,
    host, port or ssl raises [AttributeError], and so does one to
    certificate_error on a certificate error and to url on an
    [InvalidURL]. *)
Theorem properties_are_read_only (tls : bool) (e : instance) (c : cls)
    (name : string) (v : value) :
  isinstance tls e c = true ->
  name ∈ module_properties c ->
  setattr tls e name v = Raise AttributeError.
Proof.
  unfold isinstance, setattr. destruct e as [ce a en s f f2 d].
  cbn [i_class]. intros Hi Hn.
  destruct c; try (apply elem_of_nil in Hn; contradiction);
    unfold module_properties in Hn;
    destruct tls, ce; try (vm_compute in Hi; discriminate); clear Hi;
    class_cases Hn; reflexivity.
Qed.

Lemma properties_are_read_only_witness :
  setattr true
    (connector_error ClientConnectorSSLError key_example refused
       (VInt 61) (VStr "Connection refused")) "host" (VStr "other.example")
  = Raise AttributeError.
Proof.
  apply (properties_are_read_only true _ ClientConnectorError).
  - vm_compute. reflexivity.
  - unfold module_properties. in_list.
Defined.

(** ** Server disconnected *)

(** X13: a [ServerDisconnectedError] takes at most one argument.  Its
    message attribute is that argument, or None; its text is the text of
    the message when the message is given by position, and empty when it is
    given by keyword or left out, since [__init__] hands nothing to the
    base class. *)
Theorem ServerDisconnectedError_text (tls : bool) (args : list value)
    (kw : gmap string value) (e : instance) :
  construct tls ServerDisconnectedError args kw = Ok e ->
  (args = []
   /\ getattr tls e "message" = Ok (default VNone (kw !! "message"))
   /\ str tls e = Ok "")
  \/ (exists m, args = [m] /\ getattr tls e "message" = Ok m
                /\ str tls e = Ok (py_str m)).
Proof.
  intros H. rewrite construct_disconnected_error in H.
  destruct (bind _ args kw) as [locals|] eqn:Hb; [|discriminate].
  simpl in H.
  destruct locals as [|m [|? ?]]; try discriminate.
  injection H as <-.
  destruct (bind_inv _ _ _ _ Hb) as (ps & ks & E & Hps & Hks).
  simpl in Hks. injection Hks as <-. rewrite app_nil_r in E. subst ps.
  destruct args as [|a [|b rest]].
  - left. split; [reflexivity|].
    simpl in Hps. unfold bind_positional in Hps.
    rewrite lookup_nil in Hps. cbn [p_name optional] in Hps.
    destruct (kw !! "message") as [w|]; simpl in Hps; injection Hps as <-;
      split; destruct tls; reflexivity.
  - right. exists a. split; [reflexivity|].
    pose proof (bind_positional_values _ _ _ _ 0 (optional "message" VNone)
                  a Hb eq_refl eq_refl) as E.
    simpl in E. injection E as ->.
    split; destruct tls; reflexivity.
  - exfalso. unfold bind in Hb. simpl in Hb. discriminate.
Qed.

Lemma ServerDisconnectedError_text_witness :
  (([] : list value) = []
   /\ getattr true (disconnected_error [] (VStr "gone")) "message"
      = Ok (default VNone
              ((<["message" := VStr "gone"]> ∅ : gmap string value)
                 !! "message"))
   /\ str true (disconnected_error [] (VStr "gone")) = Ok "")
  \/ (exists m, [] = [m]
                /\ getattr true (disconnected_error [] (VStr "gone"))
                     "message" = Ok m
                /\ str true (disconnected_error [] (VStr "gone"))
                   = Ok (py_str m)).
Proof.
  apply (ServerDisconnectedError_text true []
           (<["message" := VStr "gone"]> ∅)).
  vm_compute. reflexivity.
Defined.

(** ** Invalid URL *)

(** X14: whatever value an [InvalidURL] is built from, by position or by
    keyword, its text is the text of that value, its [repr] is
    [<InvalidURL VALUE>], and [args] holds that value alone. *)
Theorem InvalidURL_text (tls : bool) (args : list value)
    (kw : gmap string value) (e : instance) :
  construct tls InvalidURL args kw = Ok e ->
  exists url,
    supplied InvalidURL_signature args kw "url" = Some url
    /\ getattr tls e "args" = Ok (VTuple [url])
    /\ str tls e = Ok (py_str url)
    /\ repr tls e = Ok ("<InvalidURL " +:+ py_str url +:+ ">").
Proof.
  intros H. rewrite construct_invalid_url in H.
  destruct (bind _ args kw) as [locals|] eqn:Hb; [|discriminate].
  simpl in H.
  destruct locals as [|u [|? ?]]; try discriminate.
  injection H as <-. exists u.
  split.
  - destruct (bind_inv _ _ _ _ Hb) as (ps & ks & E & Hps & Hks).
    simpl in Hks. injection Hks as <-. rewrite app_nil_r in E. subst ps.
    destruct (bind_positionals_lookup _ _ _ _ _ Hps) as [_ Hl].
    destruct (Hl 0%nat (required "url") eq_refl) as (v & Hv & Hbp).
    simpl in Hv. injection Hv as <-.
    exact (bind_positional_supplied _ _ _ _ _ Hbp eq_refl).
  - repeat split; destruct tls; reflexivity.
Qed.

Lemma InvalidURL_text_witness :
  exists url,
    supplied InvalidURL_signature []
      (<["url" := VStr "http://"]> ∅) "url" = Some url
    /\ repr true (invalid_url (VStr "http://"))
       = Ok ("<InvalidURL " +:+ py_str url +:+ ">").
Proof.
  destruct (InvalidURL_text true [] (<["url" := VStr "http://"]> ∅)
              (invalid_url (VStr "http://"))) as (url & H1 & _ & _ & H2).
  - vm_compute. reflexivity.
  - exists url. split; [exact H1 | exact H2].
Defined.

(** ** Subclasses *)

Lemma str_connector_unfold tls self :
  i_class self ∈ connector_errors ->
  str tls self
  = (strerror ← Ok (slot (i_strerror self));
     host ← (k ← dict_get self "_conn_key"; getattr_value k "host");
     port ← (k ← dict_get self "_conn_key"; getattr_value k "port");
     ssl ← (k ← dict_get self "_conn_key"; getattr_value k "ssl");
     Ok ("Cannot connect to host " +:+ py_str host +:+ ":" +:+ py_str port
         +:+ " ssl:" +:+ py_str ssl +:+ " [" +:+ py_str strerror +:+ "]")).
Proof.
  intros Hc. rewrite str_connector by exact Hc.
  unfold ClientConnectorError_str.
  destruct (connector_is_OSError tls self) as [O1 C1];
    [apply list_elem_of_further; exact Hc|].
  rewrite getattr_strerror by assumption.
  rewrite (connector_reads_conn_key tls _ "host"),
    (connector_reads_conn_key tls _ "port"),
    (connector_reads_conn_key tls _ "ssl") by (assumption || in_list).
  reflexivity.
Qed.


(** X15: the subclasses without a body of their own build exactly what
    their base builds: a [ContentTypeError], [WSServerHandshakeError] or
    [ClientHttpProxyError] has the fields and the text of the
    [ClientResponseError] built from the same arguments, a
    [ClientProxyConnectionError] or [ClientConnectorSSLError] those of the
    [ClientConnectorError]; only the class differs. *)
Theorem subclasses_inherit_constructor (tls : bool) (c : cls)
    (args : list value) (kw : gmap string value) :
  c ∈ (response_errors ++ connector_errors)%list ->
  construct tls c args kw
  = with_class c (construct tls (family_base c) args kw)
  /\ forall e, construct tls c args kw = Ok e ->
       str tls e = str tls (set_class (family_base c) e).
Proof.
  intros Hc. apply elem_of_app in Hc as [Hc|Hc].
  - assert (family_base c = ClientResponseError) as ->.
    { unfold response_errors in Hc. class_cases Hc; reflexivity. }
    rewrite !construct_response_error
      by (exact Hc || (unfold response_errors; in_list)).
    split.
    + destruct (bind _ args kw) as [locals|]; [|reflexivity]. simpl.
      destruct locals as [|x1 [|x2 [|x3 [|x4 [|x5 [|? ?]]]]]]; reflexivity.
    + intros e H.
      destruct (bind _ args kw) as [locals|]; [|discriminate]. simpl in H.
      destruct locals as [|x1 [|x2 [|x3 [|x4 [|x5 [|? ?]]]]]];
        try discriminate.
      injection H as <-.
      unfold response_errors in Hc. class_cases Hc; destruct tls; reflexivity.
  - assert (family_base c = ClientConnectorError) as ->.
    { unfold connector_errors in Hc. class_cases Hc; reflexivity. }
    rewrite !construct_connector_error
      by (exact Hc || (unfold connector_errors; in_list)).
    split.
    + destruct (bind _ args kw) as [locals|]; [|reflexivity]. simpl.
      destruct locals as [|k [|oe [|? ?]]]; try reflexivity.
      destruct (getattr_value oe "errno"); [|reflexivity]. simpl.
      destruct (getattr_value oe "strerror"); reflexivity.
    + intros e H.
      assert (i_class e = c) as Hcls.
      { apply (construct_class tls c args kw e).
        - unfold connector_errors in Hc. unfold all_. class_cases Hc; in_list.
        - rewrite construct_connector_error by exact Hc. exact H. }
      rewrite (str_connector_unfold tls e) by (rewrite Hcls; exact Hc).
      rewrite (str_connector_unfold tls (set_class ClientConnectorError e))
        by (unfold connector_errors; apply list_elem_of_here).
      reflexivity.
Qed.

Lemma subclasses_inherit_constructor_witness :
  construct true ClientProxyConnectionError [key_example; refused] ∅
  = with_class ClientProxyConnectionError
      (construct true ClientConnectorError [key_example; refused] ∅).
Proof.
  apply (subclasses_inherit_constructor true ClientProxyConnectionError).
  unfold response_errors, connector_errors. cbn [app]. in_list.
Defined.

(** ** Classes with an empty body *)

(** X16: [ClientError], [ClientConnectionError], [ServerConnectionError]
    and [ClientPayloadError] add nothing to [Exception]: they take any
    positional arguments, which become [args] and give the text, they set
    no attribute, and a call with a keyword argument raises [TypeError]. *)
Theorem plain_errors_are_plain (tls : bool) (c : cls) (args : list value)
    (kw : gmap string value) :
  c ∈ [ClientError; ClientConnectionError; ServerConnectionError;
       ClientPayloadError] ->
  (kw <> ∅ -> construct tls c args kw = Raise TypeError)
  /\ exists e,
       construct tls c args ∅ = Ok e
       /\ getattr tls e "args" = Ok (VTuple args)
       /\ i_dict e = ∅
       /\ str tls e
          = Ok (match args with
                | [] => ""
                | [a] => py_str a
                | _ => py_str (VTuple args)
                end).
Proof.
  intros Hc.
  assert (c ∈ plain_errors) as Hp
    by (unfold plain_errors; class_cases Hc; in_list).
  rewrite !construct_plain_error by exact Hp. split.
  - intros Hk. rewrite bool_decide_eq_false_2 by exact Hk. reflexivity.
  - exists (set_args (blank c) args).
    split; [reflexivity|].
    class_cases Hc; destruct tls; repeat split; reflexivity.
Qed.

Lemma plain_errors_are_plain_witness :
  exists e,
    construct true ClientPayloadError [VStr "Response payload is not completed"] ∅
    = Ok e
    /\ str true e = Ok "Response payload is not completed".
Proof.
  destruct (plain_errors_are_plain true ClientPayloadError
              [VStr "Response payload is not completed"] ∅)
    as (_ & e & H1 & _ & _ & H2).
  - in_list.
  - exists e. split; [exact H1 | exact H2].
Defined.

(** X17: a [ClientOSError] built from an errno and a strerror is an
    [OSError] whose text is [[Errno ERRNO] STRERROR]: among its bases
    [OSError] provides [__str__] before [BaseException] does. *)
Theorem ClientOSError_text (tls : bool) (errno strerror : value) :
  exists e,
    construct tls ClientOSError [errno; strerror] ∅ = Ok e
    /\ isinstance tls e OSError = true
    /\ isinstance tls e ClientConnectionError = true
    /\ getattr tls e "args" = Ok (VTuple [errno; strerror])
    /\ str tls e
       = Ok ("[Errno " +:+ py_str errno +:+ "] " +:+ py_str strerror).
Proof.
  exists (oserror_init (blank ClientOSError) [errno; strerror]).
  split; [rewrite construct_os_error; reflexivity|].
  repeat split; destruct tls; reflexivity.
Qed.

(** ** An accessor that is inherited and never set *)

(** X18: a [ClientConnectorCertificateError] is a [ClientConnectorError]
    and inherits its [os_error] property, but its constructor never stores
    an OS error: reading [os_error] raises [AttributeError] on every
    certificate error, while [certificate_error] returns the error
    stored. *)
Theorem certificate_error_has_no_os_error (tls : bool) (args : list value)
    (kw : gmap string value) (e : instance) :
  construct tls ClientConnectorCertificateError args kw = Ok e ->
  isinstance tls e ClientConnectorError = true
  /\ getattr tls e "os_error" = Raise AttributeError
  /\ is_ok (getattr tls e "certificate_error") = true.
Proof.
  intros H. rewrite construct_certificate_error in H.
  destruct (bind _ args kw) as [locals|]; [|discriminate]. simpl in H.
  destruct locals as [|k [|ce [|? ?]]]; try discriminate.
  injection H as <-. repeat split; destruct tls; reflexivity.
Qed.

Lemma certificate_error_has_no_os_error_witness :
  getattr true (certificate_error key_example certificate_error_example)
    "os_error" = Raise AttributeError.
Proof.
  apply (certificate_error_has_no_os_error true
           [key_example; certificate_error_example] ∅).
  vm_compute. reflexivity.
Defined.
